(** * ResonantLowPassFilter: a shallow embedding and its specification

    The development follows
    [AudioKit/Core/AudioKitCore/Common/ResonantLowPassFilter.cpp]:
    a second-order recursive low-pass filter with a memoised coefficient
    computation ([setParams]) and a per-sample recurrence ([process], in a
    single-sample and in a block form).

    Numbers are IEEE-754 values in the representation of the Standard
    Library's [SpecFloat]: [double] is binary64 (53 bits of precision),
    [float] is binary32 (24 bits), every arithmetic operation rounds once, to
    nearest, ties to even (a target that evaluates [double] expressions in
    binary64, without fused operations).  The three functions the source
    takes from the C mathematical library ([sin], [cos], [pow]) are not part
    of the repository and are a parameter of the model.  Sample buffers live
    in a memory of [float] cells addressed by integers, so that the two
    pointers of the block form may name the same or overlapping buffers. *)

From Stdlib Require Import ZArith Bool Lia List.
From Corelib Require Import SpecFloat.
From stdpp Require Import gmap.
Import ListNotations.

Local Open Scope Z_scope.

(** ** IEEE-754 arithmetic *)

Definition double : Type := spec_float.
Definition float : Type := spec_float.

Module Binary64.
Definition prec : Z := 53.
Definition emax : Z := 1024.
Definition mul : double -> double -> double := SFmul prec emax.
Definition add : double -> double -> double := SFadd prec emax.
Definition sub : double -> double -> double := SFsub prec emax.
Definition div : double -> double -> double := SFdiv prec emax.
Definition neg : double -> double := SFopp.
Definition eqb : double -> double -> bool := SFeqb.
Definition ltb : double -> double -> bool := SFltb.
(** The double nearest to [m * 2^e]. *)
Definition of_scaled (m e : Z) : double := binary_normalize prec emax m e false.
End Binary64.

Module Binary32.
Definition prec : Z := 24.
Definition emax : Z := 128.
Definition of_scaled (m e : Z) : float := binary_normalize prec emax m e false.
End Binary32.

Declare Scope dbl_scope.
Delimit Scope dbl_scope with dbl.
Notation "x * y" := (Binary64.mul x y) : dbl_scope.
Notation "x + y" := (Binary64.add x y) : dbl_scope.
Notation "x - y" := (Binary64.sub x y) : dbl_scope.
Notation "x / y" := (Binary64.div x y) : dbl_scope.
Notation "- x" := (Binary64.neg x) : dbl_scope.
Notation "x == y" := (Binary64.eqb x y) (at level 70, no associativity) : dbl_scope.
Notation "x < y" := (Binary64.ltb x y) : dbl_scope.
Notation "x > y" := (Binary64.ltb y x) : dbl_scope.

(** [isnan] of <math.h>. *)
Definition isnan (x : spec_float) : bool :=
  match x with S754_nan => true | _ => false end.

(** Either zero, +0.0 or -0.0. *)
Definition is_zero (x : spec_float) : bool :=
  match x with S754_zero _ => true | _ => false end.

(** The implicit conversion of a [float] to [double]: the value is kept, the
    significand is re-aligned to 53 bits. *)
Definition to_double (x : float) : double :=
  match x with
  | S754_finite s m e =>
      binary_normalize Binary64.prec Binary64.emax (cond_Zopp s (Zpos m)) e s
  | _ => x
  end.

(** The cast [(float) x] of a [double]: one rounding to 24 bits; what is
    beyond the binary32 range becomes an infinity. *)
Definition to_float (x : double) : float :=
  match x with
  | S754_finite s m e =>
      binary_normalize Binary32.prec Binary32.emax (cond_Zopp s (Zpos m)) e s
  | _ => x
  end.

(** *** The literals of the source

    Each is written with the 53-bit (24-bit) significand of its IEEE
    encoding; the examples below recompute them from their decimal text. *)

Definition d0_0 : double := S754_zero false.
Definition d1_0 : double := S754_finite false 0x10000000000000 (-52).
Definition dm1_0 : double := S754_finite true 0x10000000000000 (-52).
Definition d2_0 : double := S754_finite false 0x10000000000000 (-51).
Definition d10_0 : double := S754_finite false 0x14000000000000 (-49).
Definition d0_5 : double := S754_finite false 0x10000000000000 (-53).
Definition d0_25 : double := S754_finite false 0x10000000000000 (-54).
Definition d0_05 : double := S754_finite false 0x1999999999999A (-57).
Definition d0_99 : double := S754_finite false 0x1FAE147AE147AE (-53).
Definition d44100_0 : double := S754_finite false 0x15888000000000 (-37).
(** [M_PI] of <math.h>: 0x400921FB54442D18. *)
Definition M_PI : double := S754_finite false 0x1921FB54442D18 (-51).
Definition f0_0 : float := S754_zero false.

(** [static const float kMinCutoffHz = 12.0], and the two resonance bounds. *)
Definition kMinCutoffHz : float := S754_finite false 0xC00000 (-20).
Definition kMinResonance : float := S754_finite true 0xA00000 (-19).
Definition kMaxResonance : float := S754_finite false 0xA00000 (-19).

(** Values that only the statements and examples use. *)
Definition d4_0 : double := S754_finite false 0x10000000000000 (-50).
Definition dm2_0 : double := S754_finite true 0x10000000000000 (-51).
Definition d5_0 : double := S754_finite false 0x14000000000000 (-50).
Definition d12_0 : double := S754_finite false 0x18000000000000 (-49).
Definition d20_0 : double := S754_finite false 0x14000000000000 (-48).
Definition dm20_0 : double := S754_finite true 0x14000000000000 (-48).
Definition d100_0 : double := S754_finite false 0x19000000000000 (-46).
Definition d1000_0 : double := S754_finite false 0x1F400000000000 (-43).
Definition f1_0 : float := S754_finite false 0x800000 (-23).
Definition f_inf : float := S754_infinity false.

(** ** The filter object *)

(** Modelled from the spec: the class declaration (ResonantLowPassFilter.hpp)
    is not among the sources; the data model of the specification gives every
    member as a 64-bit float.  The member names are those the .cpp file
    uses. *)
Record ResonantLowPassFilter : Type := mkFilter {
  sampleRateHz : double;
  mLastCutoffHz : double;
  mLastResonanceDb : double;
  mX1 : double;
  mX2 : double;
  mY1 : double;
  mY2 : double;
  mA0 : double;
  mA1 : double;
  mA2 : double;
  mB1 : double;
  mB2 : double
}.

(** [void ResonantLowPassFilter::init(double sampleRateHz)].  The chained
    assignment of the source is [mX1 = mX2 = mY1 = mY1 = 0.0]: it names [mY1]
    twice and [mY2] not at all, so [mY2] keeps the value it had. *)
Definition init (newSampleRateHz : double) (this : ResonantLowPassFilter)
  : ResonantLowPassFilter :=
  {| sampleRateHz := newSampleRateHz;
     mLastCutoffHz := dm1_0;
     mLastResonanceDb := dm1_0;
     mX1 := d0_0;
     mX2 := d0_0;
     mY1 := d0_0;
     mY2 := mY2 this;
     mA0 := mA0 this;
     mA1 := mA1 this;
     mA2 := mA2 this;
     mB1 := mB1 this;
     mB2 := mB2 this |}.

(** The constructor calls [init(44100.0)] on an object whose members hold
    whatever the storage held. *)
Definition construct (storage : ResonantLowPassFilter) : ResonantLowPassFilter :=
  init d44100_0 storage.

(** The value of the recurrence before the cast, in the order C evaluates
    it: [mA0*input + mA1*mX1 + mA2*mX2 - mB1*mY1 - mB2*mY2]. *)
Definition recurrence (this : ResonantLowPassFilter) (input : float) : double :=
  (mA0 this * to_double input + mA1 this * mX1 this + mA2 this * mX2 this
   - mB1 this * mY1 this - mB2 this * mY2 this)%dbl.

(** [float ResonantLowPassFilter::process(float inputSample)]: the returned
    sample and the object after the call. *)
Definition process (inputSample : float) (this : ResonantLowPassFilter)
  : float * ResonantLowPassFilter :=
  let outputSample : float :=
    to_float (mA0 this * to_double inputSample + mA1 this * mX1 this
              + mA2 this * mX2 this - mB1 this * mY1 this
              - mB2 this * mY2 this)%dbl in
  let outputSample : float := if isnan outputSample then f0_0 else outputSample in
  (outputSample,
   {| sampleRateHz := sampleRateHz this;
      mLastCutoffHz := mLastCutoffHz this;
      mLastResonanceDb := mLastResonanceDb this;
      mX1 := to_double inputSample;
      mX2 := mX1 this;
      mY1 := to_double outputSample;
      mY2 := mY1 this;
      mA0 := mA0 this;
      mA1 := mA1 this;
      mA2 := mA2 this;
      mB1 := mB1 this;
      mB2 := mB2 this |}).

(** ** The C mathematical library

    [sin], [cos] and [pow] of <math.h> are outside the repository; the model
    takes them as given functions on doubles. *)
Record Libm : Type := mkLibm {
  libm_sin : double -> double;
  libm_cos : double -> double;
  libm_pow : double -> double -> double
}.

(** The five recursion weights, as a value. *)
Record coefficients : Type := mkCoefficients {
  a0 : double; a1 : double; a2 : double; b1 : double; b2 : double
}.

Definition coefficients_of (this : ResonantLowPassFilter) : coefficients :=
  {| a0 := mA0 this; a1 := mA1 this; a2 := mA2 this;
     b1 := mB1 this; b2 := mB2 this |}.

(** The test that opens [setParams]:
    [newCutoffHz == mLastCutoffHz && newResonanceDb == mLastResonanceDb]. *)
Definition fast_path (this : ResonantLowPassFilter)
    (newCutoffHz newResonanceDb : double) : bool :=
  (newCutoffHz == mLastCutoffHz this)%dbl
  && (newResonanceDb == mLastResonanceDb this)%dbl.

Section SetParams.
Context (libm : Libm).

(** [void ResonantLowPassFilter::setParams(double newCutoffHz,
    double newResonanceDb)].  Its first line carries the comment "only
    calculate the filter coefficients if the parameters have changed from
    last time".  The two parameters are overwritten by the clamping
    statements, so every later use, the two memo assignments included, sees
    the clamped values. *)
Definition setParams (newCutoffHz newResonanceDb : double)
    (this : ResonantLowPassFilter) : ResonantLowPassFilter :=
  if (newCutoffHz == mLastCutoffHz this)%dbl
     && (newResonanceDb == mLastResonanceDb this)%dbl
  then this
  else
    let newCutoffHz :=
      if (newCutoffHz < to_double kMinCutoffHz)%dbl
      then to_double kMinCutoffHz else newCutoffHz in
    let newResonanceDb :=
      if (newResonanceDb < to_double kMinResonance)%dbl
      then to_double kMinResonance else newResonanceDb in
    let newResonanceDb :=
      if (newResonanceDb > to_double kMaxResonance)%dbl
      then to_double kMaxResonance else newResonanceDb in
    let cutoff := (d2_0 * newCutoffHz / sampleRateHz this)%dbl in
    let cutoff := if (cutoff > d0_99)%dbl then d0_99 else cutoff in
    let r := libm_pow libm d10_0 (d0_05 * - newResonanceDb)%dbl in
    let k := (d0_5 * r * libm_sin libm (M_PI * cutoff))%dbl in
    let c1 := (d0_5 * (d1_0 - k) / (d1_0 + k))%dbl in
    let c2 := ((d0_5 + c1) * libm_cos libm (M_PI * cutoff))%dbl in
    let c3 := ((d0_5 + c1 - c2) * d0_25)%dbl in
    {| sampleRateHz := sampleRateHz this;
       mLastCutoffHz := newCutoffHz;
       mLastResonanceDb := newResonanceDb;
       mX1 := mX1 this;
       mX2 := mX2 this;
       mY1 := mY1 this;
       mY2 := mY2 this;
       mA0 := (d2_0 * c3)%dbl;
       mA1 := (d2_0 * d2_0 * c3)%dbl;
       mA2 := (d2_0 * c3)%dbl;
       mB1 := (d2_0 * - c2)%dbl;
       mB2 := (d2_0 * c1)%dbl |}.

(** *** The derivation in the words of the specification *)

(** Cutoff is raised to the 12.0 Hz floor. *)
Definition clamp_cutoff (cutoffHz : double) : double :=
  if (cutoffHz < d12_0)%dbl then d12_0 else cutoffHz.

(** Resonance is clamped to the closed range from -20.0 to 20.0. *)
Definition clamp_resonance (resonanceDb : double) : double :=
  if (resonanceDb < dm20_0)%dbl then dm20_0
  else if (resonanceDb > d20_0)%dbl then d20_0
  else resonanceDb.

(** Steps 4 to 7 of the specification, from an already clamped pair. *)
Definition spec_coefficients (rateHz clampedCutoffHz clampedResonanceDb : double)
  : coefficients :=
  let cutoff := (d2_0 * clampedCutoffHz / rateHz)%dbl in
  let cutoff := if (cutoff > d0_99)%dbl then d0_99 else cutoff in
  let r := libm_pow libm d10_0 (d0_05 * - clampedResonanceDb)%dbl in
  let k := (d0_5 * r * libm_sin libm (M_PI * cutoff))%dbl in
  let c1 := (d0_5 * (d1_0 - k) / (d1_0 + k))%dbl in
  let c2 := ((d0_5 + c1) * libm_cos libm (M_PI * cutoff))%dbl in
  let c3 := ((d0_5 + c1 - c2) * d0_25)%dbl in
  {| a0 := (d2_0 * c3)%dbl;
     a1 := (d4_0 * c3)%dbl;
     a2 := (d2_0 * c3)%dbl;
     b1 := (dm2_0 * c2)%dbl;
     b2 := (d2_0 * c1)%dbl |}.
End SetParams.

(** ** Sample buffers and the block form of [process] *)

(** Memory holding samples: one cell for each [float], addressed by its index
    in units of [sizeof(float)].  A cell that is absent is outside every
    buffer; touching it has no defined result.  The filter object itself is
    kept apart from this memory. *)
Abbreviation memory := (gmap Z float).

(** The body of [while (inFramesToProcess--)], once for each of [frames]
    remaining frames. *)
Fixpoint process_frames (frames : nat) (sourceP destP : Z)
    (this : ResonantLowPassFilter) (m : memory)
  : option (ResonantLowPassFilter * memory) :=
  match frames with
  | O => Some (this, m)
  | S frames' =>
      match m !! sourceP with
      | None => None
      | Some input =>
          let output : float :=
            to_float (mA0 this * to_double input + mA1 this * mX1 this
                      + mA2 this * mX2 this - mB1 this * mY1 this
                      - mB2 this * mY2 this)%dbl in
          let output : float := if isnan output then f0_0 else output in
          let this' :=
            {| sampleRateHz := sampleRateHz this;
               mLastCutoffHz := mLastCutoffHz this;
               mLastResonanceDb := mLastResonanceDb this;
               mX1 := to_double input;
               mX2 := mX1 this;
               mY1 := to_double output;
               mY2 := mY1 this;
               mA0 := mA0 this;
               mA1 := mA1 this;
               mA2 := mA2 this;
               mB1 := mB1 this;
               mB2 := mB2 this |} in
          match m !! destP with
          | None => None
          | Some _ =>
              process_frames frames' (sourceP + 1) (destP + 1) this'
                (<[destP := output]> m)
          end
      end
  end.

(** [void ResonantLowPassFilter::process(const float *sourceP, float *destP,
    int inFramesToProcess)].  A negative count makes the loop count down
    past the buffers and the range of [int]: no result. *)
Definition process_block (sourceP destP : Z) (inFramesToProcess : Z)
    (this : ResonantLowPassFilter) (m : memory)
  : option (ResonantLowPassFilter * memory) :=
  if inFramesToProcess <? 0 then None
  else process_frames (Z.to_nat inFramesToProcess) sourceP destP this m.

(** ** Vocabulary of the statements *)

(** The single-sample [process] called once for each sample of a list:
    the outputs in order and the object after the last call. *)
Fixpoint process_each (inputs : list float) (this : ResonantLowPassFilter)
  : list float * ResonantLowPassFilter :=
  match inputs with
  | [] => ([], this)
  | x :: rest =>
      let '(y, this') := process x this in
      let '(ys, this'') := process_each rest this' in
      (y :: ys, this'')
  end.

(** [samples] laid out in consecutive cells from address [p] on. *)
Fixpoint write_samples (p : Z) (samples : list float) (m : memory) : memory :=
  match samples with
  | [] => m
  | y :: rest => write_samples (p + 1) rest (<[p := y]> m)
  end.

(** The buffer of [length samples] cells at [p] holds [samples]. *)
Definition holds_samples (m : memory) (p : Z) (samples : list float) : Prop :=
  forall i : nat, (i < length samples)%nat ->
    m !! (p + Z.of_nat i) = samples !! i.

(** Every cell of the buffer of [n] cells at [p] exists. *)
Definition writable (m : memory) (p : Z) (n : nat) : Prop :=
  forall i : nat, (i < n)%nat -> is_Some (m !! (p + Z.of_nat i)).

(** The history taps, as a value. *)
Definition taps_of (this : ResonantLowPassFilter)
  : double * double * double * double :=
  (mX1 this, mX2 this, mY1 this, mY2 this).

(** The members that no [process] call assigns: the sample rate, the memo
    and the coefficients. *)
Definition configuration_of (this : ResonantLowPassFilter)
  : double * double * double * coefficients :=
  (sampleRateHz this, mLastCutoffHz this, mLastResonanceDb this,
   coefficients_of this).

(** The object with a new memo pair and new weights, all else kept. *)
Definition with_parameters (this : ResonantLowPassFilter)
    (cutoffHz resonanceDb : double) (k : coefficients) : ResonantLowPassFilter :=
  {| sampleRateHz := sampleRateHz this;
     mLastCutoffHz := cutoffHz;
     mLastResonanceDb := resonanceDb;
     mX1 := mX1 this; mX2 := mX2 this; mY1 := mY1 this; mY2 := mY2 this;
     mA0 := a0 k; mA1 := a1 k; mA2 := a2 k; mB1 := b1 k; mB2 := b2 k |}.

(** An object as a fresh [init] leaves it when all four taps are reset. *)
Definition with_zero_taps (this : ResonantLowPassFilter) : ResonantLowPassFilter :=
  {| sampleRateHz := sampleRateHz this;
     mLastCutoffHz := mLastCutoffHz this;
     mLastResonanceDb := mLastResonanceDb this;
     mX1 := d0_0; mX2 := d0_0; mY1 := d0_0; mY2 := d0_0;
     mA0 := mA0 this; mA1 := mA1 this; mA2 := mA2 this;
     mB1 := mB1 this; mB2 := mB2 this |}.

Section Reachability.
Context (libm : Libm).

(** The objects a client can hold: built by the constructor, then driven
    through the four member functions. *)
Inductive reachable : ResonantLowPassFilter -> Prop :=
| reachable_construct storage :
    reachable (construct storage)
| reachable_init s this :
    reachable this -> reachable (init s this)
| reachable_setParams c q this :
    reachable this -> reachable (setParams libm c q this)
| reachable_process x this :
    reachable this -> reachable (snd (process x this))
| reachable_process_block sourceP destP n m this this' m' :
    reachable this ->
    process_block sourceP destP n this m = Some (this', m') ->
    reachable this'.

(** What holds of every reachable object: either the memo is the sentinel
    of [init], or the coefficients are those of the memoised pair at the
    current sample rate, and that pair is within the clamping ranges. *)
Definition memo_consistent (this : ResonantLowPassFilter) : Prop :=
  (mLastCutoffHz this = dm1_0 /\ mLastResonanceDb this = dm1_0)
  \/ (coefficients_of this
        = spec_coefficients libm (sampleRateHz this)
            (mLastCutoffHz this) (mLastResonanceDb this)
      /\ (mLastCutoffHz this < d12_0)%dbl = false
      /\ (mLastResonanceDb this < dm20_0)%dbl = false
      /\ (mLastResonanceDb this > d20_0)%dbl = false).
End Reachability.

(** Two objects no sequence of calls can tell apart: the same sample rate,
    taps and coefficients, and memos that answer every fast-path test
    alike (they may differ in the sign of a zero). *)
Definition behaves_as (this other : ResonantLowPassFilter) : Prop :=
  sampleRateHz this = sampleRateHz other
  /\ taps_of this = taps_of other
  /\ coefficients_of this = coefficients_of other
  /\ forall c q, fast_path this c q = fast_path other c q.

(** ** Further vocabulary *)

(** A zero of either sign, or a NaN. *)
Definition zero_or_nan (x : spec_float) : bool :=
  match x with S754_zero _ | S754_nan => true | _ => false end.

(** Not a NaN and not negative: +0.0, a positive finite value or +infinity. *)
Definition sign_positive (x : spec_float) : bool :=
  match x with
  | S754_zero s | S754_infinity s | S754_finite s _ _ => negb s
  | S754_nan => false
  end.

(** A finite value above zero. *)
Definition positive_finite (x : spec_float) : bool :=
  match x with S754_finite false _ _ => true | _ => false end.

(** All four history taps are zeros. *)
Definition taps_at_rest (this : ResonantLowPassFilter) : bool :=
  is_zero (mX1 this) && is_zero (mX2 this)
  && is_zero (mY1 this) && is_zero (mY2 this).

(** No history tap is a NaN. *)
Definition taps_free_of_nan (this : ResonantLowPassFilter) : bool :=
  negb (isnan (mX1 this)) && negb (isnan (mX2 this))
  && negb (isnan (mY1 this)) && negb (isnan (mY2 this)).

(** One of the ten operands of the recurrence is a NaN. *)
Definition some_operand_nan (this : ResonantLowPassFilter) (input : float) : bool :=
  isnan input
  || isnan (mX1 this) || isnan (mX2 this)
  || isnan (mY1 this) || isnan (mY2 this)
  || isnan (mA0 this) || isnan (mA1 this) || isnan (mA2 this)
  || isnan (mB1 this) || isnan (mB2 this).

(** Lines 52 and 53 of the source on their own: the cutoff as a fraction of
    half the sample rate, clipped at 0.99. *)
Definition normalized_cutoff (rateHz clampedCutoffHz : double) : double :=
  let cutoff := (d2_0 * clampedCutoffHz / rateHz)%dbl in
  if (cutoff > d0_99)%dbl then d0_99 else cutoff.

(** Lines 58 to 69 of the source on their own: the weights from the clipped
    normalized cutoff and the clamped resonance. *)
Definition coefficients_from (libm : Libm) (cutoff clampedResonanceDb : double)
  : coefficients :=
  let r := libm_pow libm d10_0 (d0_05 * - clampedResonanceDb)%dbl in
  let k := (d0_5 * r * libm_sin libm (M_PI * cutoff))%dbl in
  let c1 := (d0_5 * (d1_0 - k) / (d1_0 + k))%dbl in
  let c2 := ((d0_5 + c1) * libm_cos libm (M_PI * cutoff))%dbl in
  let c3 := ((d0_5 + c1 - c2) * d0_25)%dbl in
  {| a0 := (d2_0 * c3)%dbl;
     a1 := (d2_0 * d2_0 * c3)%dbl;
     a2 := (d2_0 * c3)%dbl;
     b1 := (d2_0 * - c2)%dbl;
     b2 := (d2_0 * c1)%dbl |}.

(** The single-sample [process] called [n] times, the first time on [input]
    and every later time on the sample the call before returned. *)
Fixpoint process_feedback (n : nat) (input : float)
    (this : ResonantLowPassFilter) : list float * ResonantLowPassFilter :=
  match n with
  | O => ([], this)
  | S n' =>
      let '(y, this') := process input this in
      let '(ys, this'') := process_feedback n' y this' in
      (y :: ys, this'')
  end.

(** A NaN sample. *)
Definition f_nan : float := S754_nan.

(** ** Concrete objects for the examples *)

(** A filter with taps at rest, the memo as [init] leaves it, and the weights
    that [c1 = 0.25], [c2 = 0.25], [c3 = 0.125] give: [a0 = 0.25],
    [a1 = 0.5], [a2 = 0.25], [b1 = -0.5], [b2 = 0.5] (unit gain at frequency
    zero, poles inside the unit circle; about what a cutoff near 8.6 kHz and
    3 dB of resonance give at 44.1 kHz). *)
Definition filter_example : ResonantLowPassFilter :=
  {| sampleRateHz := d44100_0;
     mLastCutoffHz := dm1_0;
     mLastResonanceDb := dm1_0;
     mX1 := d0_0; mX2 := d0_0; mY1 := d0_0; mY2 := d0_0;
     mA0 := d0_25;
     mA1 := d0_5;
     mA2 := d0_25;
     mB1 := S754_finite true 0x10000000000000 (-53);
     mB2 := d0_5 |}.

(** The largest finite [float], FLT_MAX. *)
Definition f_max : float := S754_finite false 0xFFFFFF 104.

(** A mathematical library that knows the exact special cases of C99
    (annex F) and nothing else: [sin] of a zero is that zero, [cos] of a zero
    is 1, [pow] with a zero exponent is 1; every other result is NaN. *)
Definition libm_special_cases : Libm :=
  {| libm_sin := fun x => match x with S754_zero _ => x | _ => S754_nan end;
     libm_cos := fun x => match x with S754_zero _ => d1_0 | _ => S754_nan end;
     libm_pow := fun _ y => match y with S754_zero _ => d1_0 | _ => S754_nan end |}.

(** A buffer of three samples at address 0: 1.0, 1.0, 0.0. *)
Definition buffer_example : memory :=
  write_samples 0 [f1_0; f1_0; f0_0] ∅.

(** * Properties *)

(** ** Sanity checks of the literals *)

Example literals_from_integers :
  Binary64.of_scaled 1 0 = d1_0 /\ Binary64.of_scaled (-1) 0 = dm1_0 /\
  Binary64.of_scaled 2 0 = d2_0 /\ Binary64.of_scaled 10 0 = d10_0 /\
  Binary64.of_scaled 1 (-1) = d0_5 /\ Binary64.of_scaled 1 (-2) = d0_25 /\
  Binary64.of_scaled 44100 0 = d44100_0 /\ Binary64.of_scaled 4 0 = d4_0 /\
  Binary64.of_scaled (-2) 0 = dm2_0 /\ Binary64.of_scaled 5 0 = d5_0 /\
  Binary64.of_scaled 12 0 = d12_0 /\ Binary64.of_scaled 20 0 = d20_0 /\
  Binary64.of_scaled (-20) 0 = dm20_0 /\ Binary64.of_scaled 100 0 = d100_0 /\
  Binary64.of_scaled 1000 0 = d1000_0.
Proof. repeat split; vm_compute; reflexivity. Qed.

Example literals_from_decimals :
  (Binary64.of_scaled 99 0 / Binary64.of_scaled 100 0)%dbl = d0_99 /\
  (Binary64.of_scaled 5 0 / Binary64.of_scaled 100 0)%dbl = d0_05 /\
  Binary64.of_scaled 0x3243F6A8885A308D313198A2E037073 (-120) = M_PI.
Proof. repeat split; vm_compute; reflexivity. Qed.

Example literals_single :
  Binary32.of_scaled 12 0 = kMinCutoffHz /\
  Binary32.of_scaled (-20) 0 = kMinResonance /\
  Binary32.of_scaled 20 0 = kMaxResonance /\
  Binary32.of_scaled 1 0 = f1_0 /\
  to_double kMinCutoffHz = d12_0 /\
  to_double kMinResonance = dm20_0 /\
  to_double kMaxResonance = d20_0.
Proof. repeat split; vm_compute; reflexivity. Qed.

(** ** Facts of the arithmetic *)

Lemma eqb_true_cases (x y : double) :
  (x == y)%dbl = true -> x = y \/ (is_zero x = true /\ is_zero y = true).
Proof.
  unfold Binary64.eqb, SFeqb. intros H.
  destruct x as [sx|sx| |sx mx ex], y as [sy|sy| |sy my ey]; cbn in H;
    try discriminate H; try (right; split; reflexivity);
    try (destruct sx; discriminate H); try (destruct sy; discriminate H).
  - destruct sx, sy; try discriminate H; left; reflexivity.
  - destruct sx, sy; try discriminate H;
      destruct (Z.compare ex ey) eqn:He; try discriminate H;
      destruct (Pos.compare_cont Eq mx my) eqn:Hm; try discriminate H;
      apply Z.compare_eq in He; apply Pos.compare_eq in Hm; subst;
      left; reflexivity.
Qed.

(** Comparisons do not see the sign of a zero. *)
Lemma compare_zero_l (s s' : bool) (x : double) :
  SFcompare (S754_zero s) x = SFcompare (S754_zero s') x.
Proof. destruct x; reflexivity. Qed.

Lemma compare_zero_r (s s' : bool) (x : double) :
  SFcompare x (S754_zero s) = SFcompare x (S754_zero s').
Proof. destruct x; reflexivity. Qed.

Lemma eqb_true_eqb_r (x y z : double) :
  (x == y)%dbl = true -> (z == x)%dbl = (z == y)%dbl.
Proof.
  intros H. destruct (eqb_true_cases x y H) as [-> | [Hx Hy]]; [reflexivity|].
  destruct x, y; try discriminate Hx; try discriminate Hy.
  unfold Binary64.eqb, SFeqb. now rewrite (compare_zero_r s s0).
Qed.

Lemma eqb_true_ltb_l (x y z : double) :
  (x == y)%dbl = true -> (x < z)%dbl = (y < z)%dbl.
Proof.
  intros H. destruct (eqb_true_cases x y H) as [-> | [Hx Hy]]; [reflexivity|].
  destruct x, y; try discriminate Hx; try discriminate Hy.
  unfold Binary64.ltb, SFltb. now rewrite (compare_zero_l s s0).
Qed.

Lemma eqb_true_ltb_r (x y z : double) :
  (x == y)%dbl = true -> (z < x)%dbl = (z < y)%dbl.
Proof.
  intros H. destruct (eqb_true_cases x y H) as [-> | [Hx Hy]]; [reflexivity|].
  destruct x, y; try discriminate Hx; try discriminate Hy.
  unfold Binary64.ltb, SFltb. now rewrite (compare_zero_r s s0).
Qed.

(** Doubling the negation is multiplying by [-2.0]. *)
Lemma mul_two_neg (x : double) : (d2_0 * - x)%dbl = (dm2_0 * x)%dbl.
Proof. destruct x as [s|s| |s m e]; try destruct s; reflexivity. Qed.

Lemma two_times_two : (d2_0 * d2_0)%dbl = d4_0.
Proof. vm_compute. reflexivity. Qed.


(** *** Rounding never invents a NaN *)

Section RoundingNotNaN.
Variables prec emax : Z.

Lemma shr_1_nonneg (mrs : shr_record) :
  0 <= shr_m mrs -> 0 <= shr_m (shr_1 mrs).
Proof.
  destruct mrs as [m r s]; destruct m as [|p|p]; cbn; intros H;
    try destruct p; cbn; lia.
Qed.

Lemma iter_shr_1_nonneg (p : positive) :
  forall mrs, 0 <= shr_m mrs -> 0 <= shr_m (SpecFloat.iter_pos shr_1 p mrs).
Proof.
  induction p as [p IH|p IH|]; cbn; intros mrs H.
  - apply IH, IH, shr_1_nonneg, H.
  - apply IH, IH, H.
  - apply shr_1_nonneg, H.
Qed.

Lemma shr_fexp_nonneg (m e : Z) (l : location) :
  0 <= m -> 0 <= shr_m (fst (shr_fexp prec emax m e l)).
Proof.
  intros H. unfold shr_fexp, shr.
  assert (H0 : 0 <= shr_m (shr_record_of_loc m l))
    by (destruct l as [|[]]; exact H).
  destruct (fexp prec emax (Zdigits2 m + e) - e); cbn [fst]; try exact H0.
  apply iter_shr_1_nonneg, H0.
Qed.

Lemma round_nearest_even_nonneg (m : Z) (l : location) :
  0 <= m -> 0 <= round_nearest_even m l.
Proof.
  intros H. destruct l as [|[]]; cbn; try lia. destruct (Z.even m); lia.
Qed.

Lemma binary_round_aux_not_nan (s : bool) (m e : Z) (l : location) :
  0 <= m -> isnan (binary_round_aux prec emax s m e l) = false.
Proof.
  intros H. unfold binary_round_aux.
  pose proof (shr_fexp_nonneg m e l H) as H1.
  destruct (shr_fexp prec emax m e l) as [mrs' e']. cbn [fst] in H1.
  pose proof (shr_fexp_nonneg _ e' loc_Exact
                (round_nearest_even_nonneg _ (loc_of_shr_record mrs') H1)) as H2.
  destruct (shr_fexp prec emax _ e' loc_Exact) as [mrs'' e'']. cbn [fst] in H2.
  destruct (shr_m mrs'') as [|q|q]; [reflexivity| |lia].
  destruct (e'' <=? emax - prec); reflexivity.
Qed.

Lemma binary_normalize_not_nan (m e : Z) (s : bool) :
  isnan (binary_normalize prec emax m e s) = false.
Proof.
  destruct m as [|q|q]; cbn; [reflexivity| |];
    unfold binary_round;
    destruct (shl_align _ _ _) as [mz ez];
    apply binary_round_aux_not_nan; lia.
Qed.
End RoundingNotNaN.

(** The two conversions keep a NaN a NaN and produce none. *)
Lemma isnan_to_float (x : double) : isnan (to_float x) = isnan x.
Proof.
  destruct x as [s|s| |s m e]; try reflexivity.
  apply binary_normalize_not_nan.
Qed.

Lemma isnan_to_double (x : float) : isnan (to_double x) = isnan x.
Proof.
  destruct x as [s|s| |s m e]; try reflexivity.
  apply binary_normalize_not_nan.
Qed.

(** ** Initialisation *)

Lemma init_resets_three_taps (s : double) (this : ResonantLowPassFilter) :
  mX1 (init s this) = d0_0 /\ mX2 (init s this) = d0_0 /\ mY1 (init s this) = d0_0.
Proof. repeat split. Qed.

(** [init] never assigns [mY2]. *)
Lemma init_keeps_mY2 (s : double) (this : ResonantLowPassFilter) :
  mY2 (init s this) = mY2 this.
Proof. reflexivity. Qed.

Lemma init_memo (s : double) (this : ResonantLowPassFilter) :
  mLastCutoffHz (init s this) = dm1_0 /\ mLastResonanceDb (init s this) = dm1_0.
Proof. split; reflexivity. Qed.

(** C1, as the code runs: a filter that has processed the samples 1.0, 1.0
    holds the output 0.25 in [mY2]; [init(44100.0)] leaves it there, and the
    next [process(0.0)] returns -0.125, where a filter with all four taps at
    zero returns 0.0. *)
Theorem init_leaves_mY2_stale :
  let used := snd (process f1_0 (snd (process f1_0 filter_example))) in
  mY2 used = d0_25
  /\ mY2 (init d44100_0 used) = d0_25
  /\ d0_25 <> d0_0
  /\ fst (process f0_0 (init d44100_0 used)) = S754_finite true 0x800000 (-26)
  /\ fst (process f0_0 (with_zero_taps (init d44100_0 used))) = f0_0.
Proof. cbv zeta. repeat split; try (vm_compute; reflexivity). discriminate. Qed.

(** ** The recurrence of one sample *)

(** C4: [process(input)] returns the single-precision value of
    [a0*input + a1*x1 + a2*x2 - b1*y1 - b2*y2], with 0.0 in place of a NaN,
    and shifts the history: [x2] takes the old [x1], [x1] the input, [y2]
    the old [y1], [y1] the output; no other member changes. *)
Theorem process_recurrence_and_shift
    (this : ResonantLowPassFilter) (input : float) :
  let raw := to_float (recurrence this input) in
  let output := if isnan raw then f0_0 else raw in
  fst (process input this) = output
  /\ mX2 (snd (process input this)) = mX1 this
  /\ mX1 (snd (process input this)) = to_double input
  /\ mY2 (snd (process input this)) = mY1 this
  /\ mY1 (snd (process input this)) = to_double output
  /\ configuration_of (snd (process input this)) = configuration_of this.
Proof. cbv zeta. repeat split. Qed.

Lemma process_output_not_nan (this : ResonantLowPassFilter) (input : float) :
  isnan (fst (process input this)) = false
  /\ isnan (mY1 (snd (process input this))) = false.
Proof.
  assert (H : isnan (fst (process input this)) = false).
  { unfold process; cbn [fst].
    destruct (isnan (to_float _)) eqn:E; [reflexivity | exact E]. }
  split; [exact H|].
  change (mY1 (snd (process input this)))
    with (to_double (fst (process input this))).
  now rewrite isnan_to_double.
Qed.

(** The state after four samples of FLT_MAX: the third output overflows the
    single-precision range, the fourth is computed from an infinite tap. *)
Example outputs_of_five_large_samples :
  fst (process_each [f_max; f_max; f_max; f_max; f_max] filter_example)
  = [S754_finite false 0xFFFFFF 102; S754_finite false 0xDFFFFF 104;
     f_inf; f_inf; f0_0].
Proof. vm_compute. reflexivity. Qed.

(** C5, as stated, fails: after three samples of FLT_MAX the recurrence of a
    fourth is +infinity, which is not finite, and [process] returns that
    infinity and stores it in [mY1]. *)
Lemma process_returns_infinity :
  let this :=
    snd (process f_max (snd (process f_max (snd (process f_max filter_example))))) in
  recurrence this f_max = S754_infinity false
  /\ fst (process f_max this) = f_inf
  /\ f_inf <> f0_0
  /\ mY1 (snd (process f_max this)) = S754_infinity false.
Proof. cbv zeta. repeat split; try (vm_compute; reflexivity). discriminate. Qed.

(** The same with an infinite input sample and taps at rest. *)
Example process_infinite_input :
  recurrence filter_example f_inf = S754_infinity false
  /\ fst (process f_inf filter_example) = f_inf.
Proof. split; vm_compute; reflexivity. Qed.

(** C5, amended: when the recurrence yields a NaN, [process] returns exactly
    0.0 and writes 0.0 to [mY1]; and whatever the recurrence yields, neither
    the returned sample nor the [mY1] written is a NaN. *)
Theorem process_suppresses_nan (this : ResonantLowPassFilter) (input : float) :
  (isnan (recurrence this input) = true ->
     fst (process input this) = f0_0
     /\ mY1 (snd (process input this)) = d0_0)
  /\ isnan (fst (process input this)) = false
  /\ isnan (mY1 (snd (process input this))) = false.
Proof.
  split; [|apply process_output_not_nan].
  intros H. unfold process; cbn [fst snd mY1].
  fold (recurrence this input).
  rewrite isnan_to_float, H. split; reflexivity.
Qed.

Lemma process_suppresses_nan_witness :
  let this := snd (process_each [f_max; f_max; f_max; f_max] filter_example) in
  isnan (recurrence this f_max) = true
  /\ fst (process f_max this) = f0_0
  /\ mY1 (snd (process f_max this)) = d0_0.
Proof.
  cbv zeta. split; [vm_compute; reflexivity|].
  apply (proj1 (process_suppresses_nan _ f_max)). vm_compute. reflexivity.
Defined.

(** ** Parameter update *)

Section SetParamsFacts.
Context (libm : Libm).

(** The two clamping statements of the source, one after the other, clamp
    to the closed range. *)
Lemma sequential_clamp_resonance (q : double) :
  (if ((if (q < to_double kMinResonance)%dbl
        then to_double kMinResonance else q) > to_double kMaxResonance)%dbl
   then to_double kMaxResonance
   else if (q < to_double kMinResonance)%dbl
        then to_double kMinResonance else q)
  = clamp_resonance q.
Proof.
  unfold clamp_resonance.
  change (to_double kMinResonance) with dm20_0.
  change (to_double kMaxResonance) with d20_0.
  destruct (q < dm20_0)%dbl; reflexivity.
Qed.

(** [setParams] is the fast path or a recomputation from the clamped
    pair. *)
Lemma setParams_unfold (c q : double) (this : ResonantLowPassFilter) :
  setParams libm c q this
  = if fast_path this c q then this
    else with_parameters this (clamp_cutoff c) (clamp_resonance q)
           (spec_coefficients libm (sampleRateHz this)
              (clamp_cutoff c) (clamp_resonance q)).
Proof.
  unfold setParams, fast_path.
  destruct ((c == mLastCutoffHz this)%dbl && (q == mLastResonanceDb this)%dbl);
    [reflexivity|].
  cbv zeta. rewrite !sequential_clamp_resonance.
  unfold with_parameters, spec_coefficients; cbn [a0 a1 a2 b1 b2].
  rewrite mul_two_neg, two_times_two. reflexivity.
Qed.

Lemma clamp_cutoff_floor (c : double) : (clamp_cutoff c < d12_0)%dbl = false.
Proof.
  unfold clamp_cutoff. destruct (c < d12_0)%dbl eqn:E; [reflexivity | exact E].
Qed.

Lemma clamp_resonance_range (q : double) :
  (clamp_resonance q < dm20_0)%dbl = false
  /\ (clamp_resonance q > d20_0)%dbl = false.
Proof.
  unfold clamp_resonance.
  destruct (q < dm20_0)%dbl eqn:E1; [split; reflexivity|].
  destruct (q > d20_0)%dbl eqn:E2; [split; reflexivity|].
  split; assumption.
Qed.

Lemma clamp_cutoff_idempotent (c : double) :
  clamp_cutoff (clamp_cutoff c) = clamp_cutoff c.
Proof.
  unfold clamp_cutoff at 1. now rewrite clamp_cutoff_floor.
Qed.

Lemma clamp_resonance_idempotent (q : double) :
  clamp_resonance (clamp_resonance q) = clamp_resonance q.
Proof.
  destruct (clamp_resonance_range q) as [H1 H2].
  unfold clamp_resonance at 1. now rewrite H1, H2.
Qed.
End SetParamsFacts.

Section SetParamsClaims.
Context (libm : Libm).

(** What the memo holds after a recomputation, as the code has it: the
    clamped values, [mLastCutoffHz] the cutoff raised to the 12.0 floor and
    [mLastResonanceDb] the resonance clamped to the range from -20.0 to 20.0,
    because lines 47 to 49 overwrite the parameters before lines 55 and 56
    copy them; the next fast-path test compares the caller's pair against
    these. *)
Lemma setParams_memo_is_clamped
    (this : ResonantLowPassFilter) (cutoffHz resonanceDb : double) :
  fast_path this cutoffHz resonanceDb = false ->
  mLastCutoffHz (setParams libm cutoffHz resonanceDb this)
    = clamp_cutoff cutoffHz
  /\ mLastResonanceDb (setParams libm cutoffHz resonanceDb this)
    = clamp_resonance resonanceDb
  /\ forall c q,
       fast_path (setParams libm cutoffHz resonanceDb this) c q
       = (c == clamp_cutoff cutoffHz)%dbl
         && (q == clamp_resonance resonanceDb)%dbl.
Proof.
  intros H. rewrite setParams_unfold, H. repeat split.
Qed.

(** C3, amended: for every sample rate [s] and every pair [(c, q)] other
    than the sentinel pair itself (both arguments equal to -1.0), the first
    [setParams(c, q)] after [init(s)] does not take the fast path and
    recomputes the coefficients from the clamped pair at rate [s]. *)
Theorem first_setParams_recomputes
    (s : double) (this : ResonantLowPassFilter) (c q : double) :
  (c == dm1_0)%dbl && (q == dm1_0)%dbl = false ->
  fast_path (init s this) c q = false
  /\ setParams libm c q (init s this)
     = with_parameters (init s this) (clamp_cutoff c) (clamp_resonance q)
         (spec_coefficients libm s (clamp_cutoff c) (clamp_resonance q)).
Proof.
  intros H.
  assert (Hf : fast_path (init s this) c q = false) by exact H.
  split; [exact Hf|]. now rewrite setParams_unfold, Hf.
Qed.

(** C6: a [setParams(cutoffHz, resonanceDb)] call that recomputes derives
    the weights as specified, from the clamped pair and the sample rate:
    [cutoff = 2 * clampedCutoffHz / sampleRateHz], at most 0.99;
    [r = 10^(0.05 * -resonanceDb)]; [k = 0.5 * r * sin(pi * cutoff)];
    [c1 = 0.5 * (1 - k) / (1 + k)]; [c2 = (0.5 + c1) * cos(pi * cutoff)];
    [c3 = (0.5 + c1 - c2) * 0.25]; [a0 = 2*c3], [a1 = 4*c3], [a2 = 2*c3],
    [b1 = -2*c2], [b2 = 2*c1]. *)
Theorem setParams_coefficients
    (this : ResonantLowPassFilter) (cutoffHz resonanceDb : double) :
  fast_path this cutoffHz resonanceDb = false ->
  let clampedCutoffHz := clamp_cutoff cutoffHz in
  let clampedResonanceDb := clamp_resonance resonanceDb in
  let cutoff := (d2_0 * clampedCutoffHz / sampleRateHz this)%dbl in
  let cutoff := if (cutoff > d0_99)%dbl then d0_99 else cutoff in
  let r := libm_pow libm d10_0 (d0_05 * - clampedResonanceDb)%dbl in
  let k := (d0_5 * r * libm_sin libm (M_PI * cutoff))%dbl in
  let c1 := (d0_5 * (d1_0 - k) / (d1_0 + k))%dbl in
  let c2 := ((d0_5 + c1) * libm_cos libm (M_PI * cutoff))%dbl in
  let c3 := ((d0_5 + c1 - c2) * d0_25)%dbl in
  coefficients_of (setParams libm cutoffHz resonanceDb this)
  = {| a0 := (d2_0 * c3)%dbl;
       a1 := (d4_0 * c3)%dbl;
       a2 := (d2_0 * c3)%dbl;
       b1 := (dm2_0 * c2)%dbl;
       b2 := (d2_0 * c1)%dbl |}.
Proof.
  intros H. cbv zeta. rewrite setParams_unfold, H. reflexivity.
Qed.

(** C8: [setParams(x, y)] twice in a row leaves the filter as one call
    does: the second call changes no member (coefficients, memo, sample rate
    and taps are those after the first call), and no call to [setParams]
    alters the history taps. *)
Theorem setParams_twice
    (this : ResonantLowPassFilter) (x y : double) :
  setParams libm x y (setParams libm x y this) = setParams libm x y this
  /\ taps_of (setParams libm x y this) = taps_of this.
Proof.
  split.
  - rewrite (setParams_unfold libm x y this).
    destruct (fast_path this x y) eqn:E.
    + now rewrite setParams_unfold, E.
    + rewrite setParams_unfold.
      match goal with
      | |- context [fast_path (with_parameters ?t ?c ?q ?k) x y] =>
          destruct (fast_path (with_parameters t c q k) x y)
      end; reflexivity.
  - rewrite setParams_unfold. destruct (fast_path this x y); reflexivity.
Qed.
End SetParamsClaims.

(** C2, as the code runs: the comment that opens [setParams] promises a
    recomputation only when the parameters have changed from last time.  On a
    freshly constructed filter [setParams(5.0, 0.0)] does not take the fast
    path and memoises the cutoff 12.0, not the 5.0 that was passed; so the
    same call once more, with parameters that have not changed, does not take
    the fast path either and recomputes again, whatever the mathematical
    library. *)
Theorem setParams_memo_is_not_raw :
  fast_path (construct filter_example) d5_0 d0_0 = false
  /\ (forall libm,
        mLastCutoffHz (setParams libm d5_0 d0_0 (construct filter_example))
        = d12_0)
  /\ d12_0 <> d5_0
  /\ (forall libm,
        fast_path (setParams libm d5_0 d0_0 (construct filter_example))
          d5_0 d0_0 = false).
Proof.
  split; [reflexivity|]. split; [|split; [discriminate|]].
  - intros libm. now rewrite setParams_unfold.
  - intros libm. now rewrite setParams_unfold.
Qed.

Lemma setParams_memo_is_clamped_witness :
  fast_path (construct filter_example) d5_0 d100_0 = false
  /\ mLastCutoffHz
       (setParams libm_special_cases d5_0 d100_0 (construct filter_example))
     = d12_0
  /\ mLastResonanceDb
       (setParams libm_special_cases d5_0 d100_0 (construct filter_example))
     = d20_0.
Proof.
  split; [reflexivity|].
  destruct (setParams_memo_is_clamped libm_special_cases
              (construct filter_example) d5_0 d100_0 eq_refl) as [H1 [H2 _]].
  split; [exact H1 | exact H2].
Defined.

(** C3, as stated, fails: right after [init(44100.0)], [setParams(-1.0,
    -1.0)] takes the fast path and returns with no member assigned, whatever
    the mathematical library. *)
Lemma first_setParams_sentinel_skips :
  fast_path (init d44100_0 filter_example) dm1_0 dm1_0 = true
  /\ forall libm,
       setParams libm dm1_0 dm1_0 (init d44100_0 filter_example)
       = init d44100_0 filter_example.
Proof. split; [reflexivity|]. intros libm. now rewrite setParams_unfold. Qed.

Lemma first_setParams_recomputes_witness :
  (d1000_0 == dm1_0)%dbl && (d0_0 == dm1_0)%dbl = false
  /\ fast_path (init d44100_0 filter_example) d1000_0 d0_0 = false
  /\ mLastCutoffHz
       (setParams libm_special_cases d1000_0 d0_0 (init d44100_0 filter_example))
     = d1000_0.
Proof.
  split; [reflexivity|].
  destruct (first_setParams_recomputes libm_special_cases d44100_0
              filter_example d1000_0 d0_0 eq_refl) as [H1 H2].
  split; [exact H1|]. rewrite H2. reflexivity.
Defined.

Lemma setParams_coefficients_witness :
  fast_path (construct filter_example) d1000_0 d0_0 = false
  /\ coefficients_of
       (setParams libm_special_cases d1000_0 d0_0 (construct filter_example))
     = spec_coefficients libm_special_cases d44100_0 d1000_0 d0_0.
Proof.
  split; [reflexivity|].
  exact (setParams_coefficients libm_special_cases
           (construct filter_example) d1000_0 d0_0 eq_refl).
Defined.

(** ** The block form *)

(** One turn of the loop is one call of the single-sample [process], its
    result stored at [destP]. *)
Lemma process_frames_step (n : nat) (sourceP destP : Z)
    (this : ResonantLowPassFilter) (m : memory) :
  process_frames (S n) sourceP destP this m
  = match m !! sourceP, m !! destP with
    | Some input, Some _ =>
        process_frames n (sourceP + 1) (destP + 1) (snd (process input this))
          (<[destP := fst (process input this)]> m)
    | _, _ => None
    end.
Proof. cbn [process_frames]. destruct (m !! sourceP); reflexivity. Qed.

Lemma process_each_cons (x : float) (rest : list float)
    (this : ResonantLowPassFilter) :
  process_each (x :: rest) this
  = (fst (process x this) :: fst (process_each rest (snd (process x this))),
     snd (process_each rest (snd (process x this)))).
Proof.
  cbn [process_each]. destruct (process x this) as [y this']. cbn [fst snd].
  destruct (process_each rest this'); reflexivity.
Qed.

Lemma process_each_app (xs ys : list float) (this : ResonantLowPassFilter) :
  process_each (xs ++ ys) this
  = (fst (process_each xs this)
       ++ fst (process_each ys (snd (process_each xs this))),
     snd (process_each ys (snd (process_each xs this)))).
Proof.
  revert this. induction xs as [|x xs IH]; intros this.
  - cbn. now destruct (process_each ys this).
  - rewrite <- app_comm_cons, !process_each_cons, IH. reflexivity.
Qed.

Lemma process_each_length (xs : list float) (this : ResonantLowPassFilter) :
  length (fst (process_each xs this)) = length xs.
Proof.
  revert this. induction xs as [|x xs IH]; intros this; [reflexivity|].
  rewrite process_each_cons. cbn. now rewrite IH.
Qed.

Lemma write_samples_other (samples : list float) :
  forall (p : Z) (m : memory) (a : Z),
    a < p \/ p + Z.of_nat (length samples) <= a ->
    write_samples p samples m !! a = m !! a.
Proof.
  induction samples as [|y rest IH]; intros p m a Ha; [reflexivity|].
  cbn [write_samples]. cbn [length] in Ha.
  rewrite IH by lia. apply lookup_insert_ne. lia.
Qed.

Lemma write_samples_holds (samples : list float) :
  forall (p : Z) (m : memory), holds_samples (write_samples p samples m) p samples.
Proof.
  induction samples as [|y rest IH]; intros p m i Hi; cbn [length] in Hi; [lia|].
  cbn [write_samples]. destruct i as [|i].
  - rewrite Z.add_0_r, write_samples_other by lia.
    now rewrite lookup_insert_eq.
  - replace (p + Z.of_nat (S i)) with ((p + 1) + Z.of_nat i) by lia.
    apply IH. lia.
Qed.

Lemma holds_samples_tail (m : memory) (p d : Z) (x y : float) (rest : list float) :
  holds_samples m p (x :: rest) ->
  d <= p \/ p + Z.of_nat (length (x :: rest)) <= d ->
  holds_samples (<[d := y]> m) (p + 1) rest.
Proof.
  intros H Hd i Hi. cbn [length] in Hd.
  rewrite lookup_insert_ne by lia.
  replace (p + 1 + Z.of_nat i) with (p + Z.of_nat (S i)) by lia.
  apply (H (S i)). cbn [length]. lia.
Qed.

Lemma writable_tail (m : memory) (d d' : Z) (y : float) (n : nat) :
  writable m d (S n) -> writable (<[d' := y]> m) (d + 1) n.
Proof.
  intros H i Hi.
  replace (d + 1 + Z.of_nat i) with (d + Z.of_nat (S i)) by lia.
  rewrite lookup_insert_is_Some'. right. apply H. lia.
Qed.

(** The loop over [length inputs] frames is the single-sample [process] over
    [inputs], when the source buffer holds [inputs], the destination buffer
    exists, and no write lands on a sample still to be read. *)
Lemma process_frames_each (inputs : list float) :
  forall (this : ResonantLowPassFilter) (m : memory) (sourceP destP : Z),
    holds_samples m sourceP inputs ->
    writable m destP (length inputs) ->
    destP <= sourceP \/ sourceP + Z.of_nat (length inputs) <= destP ->
    process_frames (length inputs) sourceP destP this m
    = Some (snd (process_each inputs this),
            write_samples destP (fst (process_each inputs this)) m).
Proof.
  induction inputs as [|x rest IH]; intros this m sourceP destP Hs Hw Hd.
  - reflexivity.
  - cbn [length]. rewrite process_frames_step, process_each_cons.
    pose proof (Hs 0%nat ltac:(cbn; lia)) as H0.
    rewrite Z.add_0_r in H0. cbn in H0. rewrite H0.
    destruct (Hw 0%nat ltac:(cbn; lia)) as [old Hold].
    rewrite Z.add_0_r in Hold. rewrite Hold.
    cbn [fst snd write_samples].
    apply IH.
    + eapply holds_samples_tail; eassumption.
    + apply writable_tail, Hw.
    + cbn [length] in Hd. lia.
Qed.

(** A loop of [n1 + n2] frames is a loop of [n1] frames followed by one of
    [n2] frames at the advanced pointers. *)
Lemma process_frames_add (n1 n2 : nat) :
  forall (this : ResonantLowPassFilter) (m : memory) (sourceP destP : Z),
    process_frames (n1 + n2) sourceP destP this m
    = match process_frames n1 sourceP destP this m with
      | Some (this1, m1) =>
          process_frames n2 (sourceP + Z.of_nat n1) (destP + Z.of_nat n1) this1 m1
      | None => None
      end.
Proof.
  induction n1 as [|n1 IH]; intros this m sourceP destP.
  - cbn [Nat.add process_frames]. now rewrite !Z.add_0_r.
  - change (S n1 + n2)%nat with (S (n1 + n2)). rewrite !process_frames_step.
    destruct (m !! sourceP) as [input|]; [|reflexivity].
    destruct (m !! destP) as [old|]; [|reflexivity].
    rewrite IH.
    replace (sourceP + 1 + Z.of_nat n1) with (sourceP + Z.of_nat (S n1)) by lia.
    replace (destP + 1 + Z.of_nat n1) with (destP + Z.of_nat (S n1)) by lia.
    reflexivity.
Qed.

(** The loop assigns neither the sample rate, nor the memo, nor the weights,
    and writes inside the destination buffer only. *)
Lemma process_frames_frame (n : nat) :
  forall (this this' : ResonantLowPassFilter) (m m' : memory) (sourceP destP : Z),
    process_frames n sourceP destP this m = Some (this', m') ->
    configuration_of this' = configuration_of this
    /\ forall a, a < destP \/ destP + Z.of_nat n <= a -> m' !! a = m !! a.
Proof.
  induction n as [|n IH]; intros this this' m m' sourceP destP H.
  - cbn in H. injection H as <- <-. split; reflexivity.
  - rewrite process_frames_step in H.
    destruct (m !! sourceP) as [input|]; [|discriminate H].
    destruct (m !! destP) as [old|]; [|discriminate H].
    apply IH in H as [Hc Hm]. split.
    + rewrite Hc. reflexivity.
    + intros a Ha. rewrite Hm by lia. apply lookup_insert_ne. lia.
Qed.

Lemma process_block_of_nat (n : nat) (sourceP destP : Z)
    (this : ResonantLowPassFilter) (m : memory) :
  process_block sourceP destP (Z.of_nat n) this m
  = process_frames n sourceP destP this m.
Proof.
  unfold process_block.
  destruct (Z.ltb_spec (Z.of_nat n) 0) as [H|H]; [lia|].
  now rewrite Nat2Z.id.
Qed.

(** C7: with the source buffer holding the samples [xs ++ ys], the
    destination buffer allocated, and the two buffers the same, apart, or the
    destination behind the source, one block call over all the samples
    returns the final state of the single-sample [process] called on each in
    turn and leaves its outputs, in order, in the destination buffer; and a
    block call over [xs] followed by a block call over [ys] at the advanced
    pointers gives the same state and memory as the one call. *)
Theorem block_matches_single_samples
    (this : ResonantLowPassFilter) (m : memory) (sourceP destP : Z)
    (xs ys : list float) :
  holds_samples m sourceP (xs ++ ys) ->
  writable m destP (length (xs ++ ys)) ->
  destP <= sourceP \/ sourceP + Z.of_nat (length (xs ++ ys)) <= destP ->
  let outputs := fst (process_each (xs ++ ys) this) in
  let whole :=
    process_block sourceP destP (Z.of_nat (length (xs ++ ys))) this m in
  let first := process_block sourceP destP (Z.of_nat (length xs)) this m in
  whole = Some (snd (process_each (xs ++ ys) this),
                write_samples destP outputs m)
  /\ holds_samples (write_samples destP outputs m) destP outputs
  /\ length outputs = length (xs ++ ys)
  /\ match first with
     | Some (this1, m1) =>
         process_block (sourceP + Z.of_nat (length xs))
           (destP + Z.of_nat (length xs)) (Z.of_nat (length ys)) this1 m1
     | None => None
     end = whole.
Proof.
  intros Hs Hw Hd. cbv zeta. rewrite !process_block_of_nat.
  split; [now apply process_frames_each|].
  split; [apply write_samples_holds|].
  split; [apply process_each_length|].
  rewrite length_app, process_frames_add.
  destruct (process_frames (length xs) sourceP destP this m) as [[this1 m1]|];
    [|reflexivity].
  now rewrite process_block_of_nat.
Qed.

Lemma block_matches_single_samples_witness :
  holds_samples buffer_example 0 ([f1_0; f1_0] ++ [f0_0])
  /\ writable buffer_example 0 (length ([f1_0; f1_0] ++ [f0_0]))
  /\ process_block 0 0 3 filter_example buffer_example
     = Some (snd (process_each [f1_0; f1_0; f0_0] filter_example),
             write_samples 0
               (fst (process_each [f1_0; f1_0; f0_0] filter_example))
               buffer_example).
Proof.
  assert (Hs : holds_samples buffer_example 0 ([f1_0; f1_0] ++ [f0_0])).
  { intros i Hi. destruct i as [|[|[|i]]];
      [vm_compute; reflexivity .. | cbn in Hi; lia]. }
  assert (Hw : writable buffer_example 0 (length ([f1_0; f1_0] ++ [f0_0]))).
  { intros i Hi. destruct i as [|[|[|i]]];
      [eexists; vm_compute; reflexivity .. | cbn in Hi; lia]. }
  split; [exact Hs|]. split; [exact Hw|].
  exact (proj1 (block_matches_single_samples filter_example buffer_example
                  0 0 [f1_0; f1_0] [f0_0] Hs Hw (or_introl (Z.le_refl 0)))).
Defined.

Lemma process_block_frame (sourceP destP frameCount : Z)
    (this this' : ResonantLowPassFilter) (m m' : memory) :
  process_block sourceP destP frameCount this m = Some (this', m') ->
  configuration_of this' = configuration_of this
  /\ forall a : Z, a < destP \/ destP + frameCount <= a -> m' !! a = m !! a.
Proof.
  intros H. unfold process_block in H.
  destruct (Z.ltb_spec frameCount 0) as [Hn|Hn]; [discriminate H|].
  apply process_frames_frame in H as [Hc Hm]. split; [exact Hc|].
  intros a Ha. apply Hm. lia.
Qed.

(** C10: no [process] call, of one sample or of a block of any frame count,
    changes [sampleRateHz], the memo pair or the five weights; a block call
    changes no memory cell outside the [frameCount] cells of the destination
    buffer; and a block call with [frameCount = 0] returns the filter and the
    memory as they were. *)
Theorem process_leaves_configuration (this : ResonantLowPassFilter) :
  (forall input : float,
     configuration_of (snd (process input this)) = configuration_of this)
  /\ (forall (sourceP destP frameCount : Z) (m m' : memory)
        (this' : ResonantLowPassFilter),
        process_block sourceP destP frameCount this m = Some (this', m') ->
        configuration_of this' = configuration_of this
        /\ forall a : Z,
             a < destP \/ destP + frameCount <= a -> m' !! a = m !! a)
  /\ (forall (sourceP destP : Z) (m : memory),
        process_block sourceP destP 0 this m = Some (this, m)).
Proof.
  split; [reflexivity|]. split; [|reflexivity].
  intros sourceP destP frameCount m m' this' H.
  eapply process_block_frame, H.
Qed.

Lemma process_leaves_configuration_witness :
  process_block 0 0 3 filter_example buffer_example
  = Some (snd (process_each [f1_0; f1_0; f0_0] filter_example),
          write_samples 0
            (fst (process_each [f1_0; f1_0; f0_0] filter_example))
            buffer_example)
  /\ configuration_of (snd (process_each [f1_0; f1_0; f0_0] filter_example))
     = configuration_of filter_example.
Proof.
  assert (H : process_block 0 0 3 filter_example buffer_example
              = Some (snd (process_each [f1_0; f1_0; f0_0] filter_example),
                      write_samples 0
                        (fst (process_each [f1_0; f1_0; f0_0] filter_example))
                        buffer_example))
    by (vm_compute; reflexivity).
  split; [exact H|].
  exact (proj1 (proj1 (proj2 (process_leaves_configuration filter_example))
                  0 0 3 buffer_example _ _ H)).
Defined.

(** ** Reachable objects and the clamping of arguments *)

Section Clamping.
Context (libm : Libm).

Lemma memo_consistent_configuration (this this' : ResonantLowPassFilter) :
  configuration_of this' = configuration_of this ->
  memo_consistent libm this -> memo_consistent libm this'.
Proof.
  unfold configuration_of, memo_consistent. intros H.
  assert (Hs : sampleRateHz this' = sampleRateHz this) by congruence.
  assert (Hc : mLastCutoffHz this' = mLastCutoffHz this) by congruence.
  assert (Hq : mLastResonanceDb this' = mLastResonanceDb this) by congruence.
  assert (Hk : coefficients_of this' = coefficients_of this) by congruence.
  now rewrite Hs, Hc, Hq, Hk.
Qed.

(** Every reachable object has a consistent memo. *)
Lemma reachable_memo_consistent (this : ResonantLowPassFilter) :
  reachable libm this -> memo_consistent libm this.
Proof.
  induction 1 as [storage | s this _ _ | c q this _ IH | x this _ IH
                 | sourceP destP n m this this' m' _ IH Hb].
  - left. split; reflexivity.
  - left. split; reflexivity.
  - rewrite setParams_unfold. destruct (fast_path this c q); [exact IH|].
    right. split; [reflexivity|]. cbn [with_parameters mLastCutoffHz mLastResonanceDb].
    split; [apply clamp_cutoff_floor | apply clamp_resonance_range].
  - eapply memo_consistent_configuration; [|exact IH]. reflexivity.
  - eapply memo_consistent_configuration; [|exact IH].
    eapply process_block_frame, Hb.
Qed.

(** *** Objects that behave alike *)

Lemma behaves_as_refl (a : ResonantLowPassFilter) : behaves_as a a.
Proof. repeat split. Qed.

Lemma behaves_as_sym (a b : ResonantLowPassFilter) :
  behaves_as a b -> behaves_as b a.
Proof.
  intros (H1 & H2 & H3 & H4).
  split; [congruence|]. split; [congruence|]. split; [congruence|].
  intros x y. now rewrite H4.
Qed.

Lemma behaves_as_trans (a b c : ResonantLowPassFilter) :
  behaves_as a b -> behaves_as b c -> behaves_as a c.
Proof.
  intros (H1 & H2 & H3 & H4) (K1 & K2 & K3 & K4).
  split; [congruence|]. split; [congruence|]. split; [congruence|].
  intros x y. now rewrite H4.
Qed.

Lemma behaves_as_fields (a b : ResonantLowPassFilter) :
  behaves_as a b ->
  sampleRateHz a = sampleRateHz b
  /\ mX1 a = mX1 b /\ mX2 a = mX2 b /\ mY1 a = mY1 b /\ mY2 a = mY2 b
  /\ mA0 a = mA0 b /\ mA1 a = mA1 b /\ mA2 a = mA2 b
  /\ mB1 a = mB1 b /\ mB2 a = mB2 b.
Proof.
  unfold behaves_as, taps_of, coefficients_of.
  intros (H1 & [= ? ? ? ?] & [= ? ? ? ? ?] & _). repeat split; assumption.
Qed.

(** Alike objects give the same sample and stay alike under [process], and
    stay alike under [init] and [setParams]. *)
Lemma behaves_as_process (x : float) (a b : ResonantLowPassFilter) :
  behaves_as a b ->
  fst (process x a) = fst (process x b)
  /\ behaves_as (snd (process x a)) (snd (process x b)).
Proof.
  intros H. pose proof (behaves_as_fields a b H)
    as (Hs & Hx1 & Hx2 & Hy1 & Hy2 & Ha0 & Ha1 & Ha2 & Hb1 & Hb2).
  destruct H as (_ & _ & _ & Hf).
  unfold process, behaves_as, taps_of, coefficients_of, fast_path in *.
  cbn [fst snd sampleRateHz mLastCutoffHz mLastResonanceDb
       mX1 mX2 mY1 mY2 mA0 mA1 mA2 mB1 mB2].
  rewrite Hs, Hx1, Hx2, Hy1, Hy2, Ha0, Ha1, Ha2, Hb1, Hb2.
  repeat split. exact Hf.
Qed.

Lemma behaves_as_process_frames (n : nat) :
  forall (a b : ResonantLowPassFilter) (m : memory) (sourceP destP : Z),
    behaves_as a b ->
    match process_frames n sourceP destP a m,
          process_frames n sourceP destP b m with
    | Some (a', ma), Some (b', mb) => ma = mb /\ behaves_as a' b'
    | None, None => True
    | _, _ => False
    end.
Proof.
  induction n as [|n IH]; intros a b m sourceP destP H.
  - cbn. split; [reflexivity | exact H].
  - rewrite !process_frames_step.
    destruct (m !! sourceP) as [input|]; [|exact I].
    destruct (m !! destP) as [old|]; [|exact I].
    destruct (behaves_as_process input a b H) as [E H'].
    rewrite E. apply IH, H'.
Qed.

Lemma behaves_as_init (s : double) (a b : ResonantLowPassFilter) :
  behaves_as a b -> behaves_as (init s a) (init s b).
Proof.
  intros H. pose proof (behaves_as_fields a b H)
    as (Hs & Hx1 & Hx2 & Hy1 & Hy2 & Ha0 & Ha1 & Ha2 & Hb1 & Hb2).
  unfold init, behaves_as, taps_of, coefficients_of, fast_path.
  cbn [sampleRateHz mLastCutoffHz mLastResonanceDb
       mX1 mX2 mY1 mY2 mA0 mA1 mA2 mB1 mB2].
  rewrite Hy2, Ha0, Ha1, Ha2, Hb1, Hb2. repeat split.
Qed.

Lemma behaves_as_setParams (c q : double) (a b : ResonantLowPassFilter) :
  behaves_as a b ->
  behaves_as (setParams libm c q a) (setParams libm c q b).
Proof.
  intros H. pose proof (behaves_as_fields a b H)
    as (Hs & Hx1 & Hx2 & Hy1 & Hy2 & _).
  rewrite !setParams_unfold.
  destruct H as (H1 & H2 & H3 & Hf). rewrite <- (Hf c q).
  destruct (fast_path a c q); [repeat split; assumption|].
  unfold with_parameters, behaves_as, taps_of, coefficients_of, fast_path.
  cbn [sampleRateHz mLastCutoffHz mLastResonanceDb
       mX1 mX2 mY1 mY2 mA0 mA1 mA2 mB1 mB2].
  rewrite Hs, Hx1, Hx2, Hy1, Hy2. repeat split.
Qed.

(** *** Clamped arguments *)

Hypothesis pow_zero_exponent :
  libm_pow libm d10_0 (S754_zero true) = libm_pow libm d10_0 (S754_zero false).

Lemma spec_coefficients_zero_sign (rateHz c : double) (s1 s2 : bool) :
  spec_coefficients libm rateHz c (S754_zero s1)
  = spec_coefficients libm rateHz c (S754_zero s2).
Proof.
  assert (R : forall s, libm_pow libm d10_0 (d0_05 * - S754_zero s)%dbl
                        = libm_pow libm d10_0 (S754_zero false)).
  { intros [|]; cbn; [reflexivity | exact pow_zero_exponent]. }
  unfold spec_coefficients. now rewrite !R.
Qed.

(** Unless the arguments are the sentinel pair, [setParams] on a reachable
    object behaves as [setParams] with the clamped arguments. *)
Lemma setParams_clamped_arguments
    (this : ResonantLowPassFilter) (c q : double) :
  memo_consistent libm this ->
  (c == dm1_0)%dbl && (q == dm1_0)%dbl = false ->
  behaves_as (setParams libm c q this)
    (setParams libm (clamp_cutoff c) (clamp_resonance q) this).
Proof.
  intros Hm Hne. rewrite !setParams_unfold.
  rewrite clamp_cutoff_idempotent, clamp_resonance_idempotent.
  destruct (fast_path this c q) eqn:Ef.
  - (* the raw pair equals the memo: it is within range already *)
    unfold fast_path in Ef. apply andb_true_iff in Ef as [Ec Eq].
    destruct Hm as [[Hc Hq] | (_ & Hc & Hq1 & Hq2)].
    + rewrite Hc, Hq in *. rewrite Ec, Eq in Hne. discriminate Hne.
    + assert (Kc : clamp_cutoff c = c).
      { unfold clamp_cutoff. now rewrite (eqb_true_ltb_l _ _ _ Ec), Hc. }
      assert (Kq : clamp_resonance q = q).
      { unfold clamp_resonance.
        now rewrite (eqb_true_ltb_l _ _ _ Eq), Hq1,
                    (eqb_true_ltb_r _ _ _ Eq), Hq2. }
      rewrite Kc, Kq. unfold fast_path. rewrite Ec, Eq. apply behaves_as_refl.
  - destruct (fast_path this (clamp_cutoff c) (clamp_resonance q)) eqn:Ef';
      [|apply behaves_as_refl].
    (* the clamped pair equals the memo: the weights are already these *)
    unfold fast_path in Ef'. apply andb_true_iff in Ef' as [Ec Eq].
    pose proof (clamp_cutoff_floor c) as Hfloor.
    assert (Hk : spec_coefficients libm (sampleRateHz this)
                   (clamp_cutoff c) (clamp_resonance q)
                 = coefficients_of this).
    { destruct Hm as [[Hc Hq] | (Hk & Hc & Hq1 & Hq2)].
      - rewrite Hc in Ec. rewrite (eqb_true_ltb_l _ _ d12_0 Ec) in Hfloor.
        discriminate Hfloor.
      - rewrite Hk.
        destruct (eqb_true_cases _ _ Ec) as [<- | [Hz _]].
        + destruct (eqb_true_cases _ _ Eq) as [<- | [Hz1 Hz2]]; [reflexivity|].
          destruct (clamp_resonance q), (mLastResonanceDb this);
            try discriminate Hz1; try discriminate Hz2.
          apply spec_coefficients_zero_sign.
        + destruct (clamp_cutoff c); try discriminate Hz.
          discriminate Hfloor. }
    unfold behaves_as, with_parameters, taps_of, coefficients_of, fast_path.
    cbn [sampleRateHz mLastCutoffHz mLastResonanceDb
         mX1 mX2 mY1 mY2 mA0 mA1 mA2 mB1 mB2].
    repeat split.
    + fold (coefficients_of this). rewrite <- Hk. reflexivity.
    + intros x y.
      now rewrite (eqb_true_eqb_r _ _ x Ec), (eqb_true_eqb_r _ _ y Eq).
Qed.

(** C9: on every filter a client can hold, [setParams(5.0, 0.0)] leaves an
    object that behaves as the one [setParams(12.0, 0.0)] leaves, and
    [setParams(1000.0, 100.0)] as [setParams(1000.0, 20.0)]; a resonance
    below -20.0 behaves as -20.0 and one above 20.0 as 20.0, with any
    cutoff.  The mathematical library is taken to give the same [pow] of
    10 for the exponents +0.0 and -0.0. *)
Theorem setParams_clamps (this : ResonantLowPassFilter) :
  reachable libm this ->
  behaves_as (setParams libm d5_0 d0_0 this) (setParams libm d12_0 d0_0 this)
  /\ behaves_as (setParams libm d1000_0 d100_0 this)
       (setParams libm d1000_0 d20_0 this)
  /\ (forall c q, (q < dm20_0)%dbl = true ->
        behaves_as (setParams libm c q this) (setParams libm c dm20_0 this))
  /\ (forall c q, (q > d20_0)%dbl = true ->
        behaves_as (setParams libm c q this) (setParams libm c d20_0 this)).
Proof.
  intros Hr. apply reachable_memo_consistent in Hr.
  split; [exact (setParams_clamped_arguments this d5_0 d0_0 Hr eq_refl)|].
  split; [exact (setParams_clamped_arguments this d1000_0 d100_0 Hr eq_refl)|].
  split; intros c q Hq.
  - assert (Hne : (q == dm1_0)%dbl = false).
    { destruct (q == dm1_0)%dbl eqn:E; [|reflexivity].
      rewrite (eqb_true_ltb_l _ _ _ E) in Hq. discriminate Hq. }
    eapply behaves_as_trans.
    + apply (setParams_clamped_arguments this c q Hr).
      rewrite Hne. apply andb_false_r.
    + apply behaves_as_sym.
      replace (clamp_resonance q) with (clamp_resonance dm20_0)
        by (unfold clamp_resonance at 2; now rewrite Hq).
      apply (setParams_clamped_arguments this c dm20_0 Hr).
      apply andb_false_r.
  - assert (Hne : (q == dm1_0)%dbl = false).
    { destruct (q == dm1_0)%dbl eqn:E; [|reflexivity].
      rewrite (eqb_true_ltb_r _ _ _ E) in Hq. discriminate Hq. }
    eapply behaves_as_trans.
    + apply (setParams_clamped_arguments this c q Hr).
      rewrite Hne. apply andb_false_r.
    + apply behaves_as_sym.
      replace (clamp_resonance q) with (clamp_resonance d20_0).
      * apply (setParams_clamped_arguments this c d20_0 Hr).
        apply andb_false_r.
      * unfold clamp_resonance at 2. rewrite Hq.
        destruct (q < dm20_0)%dbl eqn:E; [|reflexivity].
        destruct q as [s|s| |s mq eq]; try discriminate Hq;
          try discriminate E; destruct s; discriminate.
Qed.
End Clamping.

Lemma setParams_clamps_witness :
  let this :=
    setParams libm_special_cases d12_0 (S754_zero true)
      (construct filter_example) in
  libm_pow libm_special_cases d10_0 (S754_zero true)
    = libm_pow libm_special_cases d10_0 (S754_zero false)
  /\ reachable libm_special_cases this
  /\ fast_path this d12_0 d0_0 = true
  /\ behaves_as (setParams libm_special_cases d5_0 d0_0 this)
       (setParams libm_special_cases d12_0 d0_0 this).
Proof.
  cbv zeta.
  assert (Hr : reachable libm_special_cases
                 (setParams libm_special_cases d12_0 (S754_zero true)
                    (construct filter_example)))
    by (apply reachable_setParams, reachable_construct).
  split; [reflexivity|]. split; [exact Hr|]. split; [vm_compute; reflexivity|].
  exact (proj1 (setParams_clamps libm_special_cases eq_refl _ Hr)).
Defined.


(** * Further properties of the code *)

(** ** More facts of the arithmetic *)

Lemma mul_nan (x y : double) :
  isnan x || isnan y = true -> isnan (x * y)%dbl = true.
Proof. destruct x, y; cbn; intros H; try discriminate H; reflexivity. Qed.

Lemma add_nan (x y : double) :
  isnan x || isnan y = true -> isnan (x + y)%dbl = true.
Proof. destruct x, y; cbn; intros H; try discriminate H; reflexivity. Qed.

Lemma sub_nan (x y : double) :
  isnan x || isnan y = true -> isnan (x - y)%dbl = true.
Proof. destruct x, y; cbn; intros H; try discriminate H; reflexivity. Qed.

Lemma mul_zero_r (x y : double) :
  is_zero y = true -> zero_or_nan (x * y)%dbl = true.
Proof. destruct x, y; cbn; intros H; try discriminate H; reflexivity. Qed.

Lemma add_zero_or_nan (x y : double) :
  zero_or_nan x = true -> zero_or_nan y = true -> zero_or_nan (x + y)%dbl = true.
Proof.
  destruct x as [[|]| | |], y as [[|]| | |]; cbn; intros H K;
    try discriminate H; try discriminate K; reflexivity.
Qed.

Lemma sub_zero_or_nan (x y : double) :
  zero_or_nan x = true -> zero_or_nan y = true -> zero_or_nan (x - y)%dbl = true.
Proof.
  destruct x as [[|]| | |], y as [[|]| | |]; cbn; intros H K;
    try discriminate H; try discriminate K; reflexivity.
Qed.

Lemma eqb_refl (x : double) : isnan x = false -> (x == x)%dbl = true.
Proof.
  unfold Binary64.eqb, SFeqb.
  destruct x as [s|s| |s m e]; cbn; intros H; try discriminate H;
    try reflexivity; destruct s; try reflexivity;
    now rewrite Z.compare_refl, Pos.compare_cont_refl.
Qed.

Lemma eqb_nan_l (x y : double) : isnan x = true -> (x == y)%dbl = false.
Proof. destruct x; try discriminate; reflexivity. Qed.

(** ** Silence and NaN through the recurrence *)

Lemma recurrence_at_rest (this : ResonantLowPassFilter) (input : float) :
  is_zero input = true -> taps_at_rest this = true ->
  zero_or_nan (recurrence this input) = true.
Proof.
  unfold taps_at_rest. intros Hi H.
  apply andb_true_iff in H as [H Hy2]. apply andb_true_iff in H as [H Hy1].
  apply andb_true_iff in H as [Hx1 Hx2].
  assert (Hd : is_zero (to_double input) = true)
    by (destruct input; try discriminate Hi; reflexivity).
  unfold recurrence.
  repeat first [apply sub_zero_or_nan | apply add_zero_or_nan];
    apply mul_zero_r; assumption.
Qed.

Lemma process_at_rest (this : ResonantLowPassFilter) (input : float) :
  is_zero input = true -> taps_at_rest this = true ->
  is_zero (fst (process input this)) = true
  /\ taps_at_rest (snd (process input this)) = true.
Proof.
  intros Hi H. pose proof (recurrence_at_rest this input Hi H) as Hr.
  assert (Ho : is_zero (fst (process input this)) = true).
  { unfold process; cbn [fst]. fold (recurrence this input).
    destruct (recurrence this input); try discriminate Hr; reflexivity. }
  split; [exact Ho|].
  unfold taps_at_rest in *.
  change (mX1 (snd (process input this))) with (to_double input).
  change (mX2 (snd (process input this))) with (mX1 this).
  change (mY1 (snd (process input this)))
    with (to_double (fst (process input this))).
  change (mY2 (snd (process input this))) with (mY1 this).
  apply andb_true_iff in H as [H Hy2]. apply andb_true_iff in H as [H Hy1].
  apply andb_true_iff in H as [Hx1 Hx2].
  destruct input; try discriminate Hi.
  destruct (fst (process _ this)); try discriminate Ho.
  cbn [to_double is_zero]. now rewrite Hx1, Hy1.
Qed.

(** X1: silence in, silence out.  With the four taps at zero, [process] on
    any number of zero samples returns only zeros and leaves the taps at zero,
    whatever the weights are (infinite or NaN weights included: their NaN
    products are suppressed). *)
Theorem silence_in_silence_out
    (this : ResonantLowPassFilter) (inputs : list float) :
  taps_at_rest this = true ->
  forallb is_zero inputs = true ->
  forallb is_zero (fst (process_each inputs this)) = true
  /\ taps_at_rest (snd (process_each inputs this)) = true.
Proof.
  revert this. induction inputs as [|x rest IH]; intros this H Hz.
  - split; [reflexivity | exact H].
  - cbn [forallb] in Hz. apply andb_true_iff in Hz as [Hx Hrest].
    destruct (process_at_rest this x Hx H) as [Ho Ht].
    rewrite process_each_cons. cbn [fst snd forallb].
    destruct (IH _ Ht Hrest) as [IH1 IH2].
    now rewrite Ho, IH1.
Qed.

Lemma silence_in_silence_out_witness :
  taps_at_rest filter_example = true
  /\ forallb is_zero [f0_0; S754_zero true; f0_0] = true
  /\ forallb is_zero
       (fst (process_each [f0_0; S754_zero true; f0_0] filter_example)) = true.
Proof.
  split; [reflexivity|]. split; [reflexivity|].
  exact (proj1 (silence_in_silence_out filter_example
                  [f0_0; S754_zero true; f0_0] eq_refl eq_refl)).
Defined.

Lemma mul_nan_l (x y : double) : isnan x = true -> isnan (x * y)%dbl = true.
Proof. intros H. apply mul_nan. now rewrite H. Qed.

Lemma mul_nan_r (x y : double) : isnan y = true -> isnan (x * y)%dbl = true.
Proof. intros H. apply mul_nan. rewrite H. apply orb_true_r. Qed.

Lemma add_nan_l (x y : double) : isnan x = true -> isnan (x + y)%dbl = true.
Proof. intros H. apply add_nan. now rewrite H. Qed.

Lemma add_nan_r (x y : double) : isnan y = true -> isnan (x + y)%dbl = true.
Proof. intros H. apply add_nan. rewrite H. apply orb_true_r. Qed.

Lemma sub_nan_l (x y : double) : isnan x = true -> isnan (x - y)%dbl = true.
Proof. intros H. apply sub_nan. now rewrite H. Qed.

Lemma sub_nan_r (x y : double) : isnan y = true -> isnan (x - y)%dbl = true.
Proof. intros H. apply sub_nan. rewrite H. apply orb_true_r. Qed.

Create HintDb nan_db.
#[local] Hint Resolve mul_nan_l mul_nan_r add_nan_l add_nan_r
  sub_nan_l sub_nan_r : nan_db.

Lemma recurrence_nan (this : ResonantLowPassFilter) (input : float) :
  some_operand_nan this input = true -> isnan (recurrence this input) = true.
Proof.
  unfold some_operand_nan, recurrence. intros H.
  rewrite <- (isnan_to_double input) in H.
  repeat (apply orb_true_iff in H; destruct H as [H|H]);
    auto 8 with nan_db.
Qed.

(** X2: when any operand of the recurrence is a NaN (the input sample, one
    of the four taps or one of the five weights), [process] returns exactly
    +0.0 and writes +0.0 to [mY1]. *)
Theorem process_nan_operand (this : ResonantLowPassFilter) (input : float) :
  some_operand_nan this input = true ->
  fst (process input this) = f0_0
  /\ mY1 (snd (process input this)) = d0_0.
Proof.
  intros H. apply recurrence_nan in H.
  unfold process; cbn [fst snd mY1]. fold (recurrence this input).
  rewrite isnan_to_float, H. split; reflexivity.
Qed.

Lemma process_nan_operand_witness :
  some_operand_nan filter_example f_nan = true
  /\ fst (process f_nan filter_example) = f0_0
  /\ mY1 (snd (process f_nan filter_example)) = d0_0.
Proof.
  split; [reflexivity|].
  exact (process_nan_operand filter_example f_nan eq_refl).
Defined.

Lemma process_nan_in_x1 (this : ResonantLowPassFilter) (input : float) :
  isnan (mX1 this) = true -> fst (process input this) = f0_0.
Proof.
  intros H. apply process_nan_operand. unfold some_operand_nan.
  rewrite H. now rewrite orb_true_r.
Qed.

Lemma process_nan_in_x2 (this : ResonantLowPassFilter) (input : float) :
  isnan (mX2 this) = true -> fst (process input this) = f0_0.
Proof.
  intros H. apply process_nan_operand. unfold some_operand_nan.
  rewrite H. now rewrite !orb_true_r.
Qed.

(** X3: a NaN input sample silences three calls.  Whatever the state and
    whatever the two samples that follow it, the call on the NaN and the two
    calls after it each return exactly +0.0. *)
Theorem nan_input_silences_three_calls
    (this : ResonantLowPassFilter) (x second third : float) :
  isnan x = true ->
  fst (process_each [x; second; third] this) = [f0_0; f0_0; f0_0].
Proof.
  intros H. rewrite !process_each_cons. cbn [fst snd process_each].
  assert (H1 : fst (process x this) = f0_0).
  { apply process_nan_operand. unfold some_operand_nan. now rewrite H. }
  assert (Hx : isnan (to_double x) = true) by now rewrite isnan_to_double.
  assert (H2 : fst (process second (snd (process x this))) = f0_0)
    by (apply process_nan_in_x1; exact Hx).
  assert (H3 : fst (process third (snd (process second (snd (process x this)))))
               = f0_0)
    by (apply process_nan_in_x2; exact Hx).
  now rewrite H1, H2, H3.
Qed.

Lemma nan_input_silences_three_calls_witness :
  isnan f_nan = true
  /\ fst (process_each [f_nan; f1_0; f1_0] filter_example)
     = [f0_0; f0_0; f0_0].
Proof.
  split; [reflexivity|].
  exact (nan_input_silences_three_calls filter_example f_nan f1_0 f1_0 eq_refl).
Defined.

(** X4: two samples that are not NaN clear every NaN out of the history.
    Whatever the taps held before, after [process] on two such samples in a
    row none of the four taps is a NaN. *)
Theorem two_samples_flush_nan
    (this : ResonantLowPassFilter) (first second : float) :
  isnan first = false -> isnan second = false ->
  taps_free_of_nan (snd (process second (snd (process first this)))) = true.
Proof.
  intros H1 H2. unfold taps_free_of_nan.
  set (mid := snd (process first this)).
  change (mX1 (snd (process second mid))) with (to_double second).
  change (mX2 (snd (process second mid))) with (to_double first).
  change (mY2 (snd (process second mid))) with (mY1 (snd (process first this))).
  rewrite !isnan_to_double, H1, H2.
  rewrite (proj2 (process_output_not_nan mid second)).
  rewrite (proj2 (process_output_not_nan this first)). reflexivity.
Qed.

Lemma two_samples_flush_nan_witness :
  let dirty := snd (process f_nan (snd (process f_nan filter_example))) in
  taps_free_of_nan dirty = false
  /\ isnan f1_0 = false
  /\ taps_free_of_nan (snd (process f1_0 (snd (process f1_0 dirty)))) = true.
Proof.
  cbv zeta. split; [vm_compute; reflexivity|]. split; [reflexivity|].
  exact (two_samples_flush_nan _ f1_0 f1_0 eq_refl eq_refl).
Defined.

(** X5: the taps hold the two most recent samples.  After [process] on a
    sequence that ends in the samples [a], [b], [mX1] is [b], [mX2] is [a],
    and [mY1], [mY2] are the last and the last-but-one sample returned. *)
Theorem taps_hold_last_two
    (this : ResonantLowPassFilter) (earlier : list float) (a b : float) :
  let before := snd (process_each earlier this) in
  let ya := fst (process a before) in
  let yb := fst (process b (snd (process a before))) in
  let after := snd (process_each (earlier ++ [a; b]) this) in
  fst (process_each (earlier ++ [a; b]) this)
    = fst (process_each earlier this) ++ [ya; yb]
  /\ mX1 after = to_double b /\ mX2 after = to_double a
  /\ mY1 after = to_double yb /\ mY2 after = to_double ya.
Proof.
  cbv zeta. rewrite process_each_app, !process_each_cons.
  cbn [fst snd process_each]. repeat split.
Qed.

(** ** The block form and its buffers *)

Lemma process_frames_succeeds (n : nat) :
  forall (this : ResonantLowPassFilter) (m : memory) (sourceP destP : Z),
    is_Some (process_frames n sourceP destP this m)
    <-> forall i : nat, (i < n)%nat ->
          is_Some (m !! (sourceP + Z.of_nat i))
          /\ is_Some (m !! (destP + Z.of_nat i)).
Proof.
  induction n as [|n IH]; intros this m sourceP destP.
  - split; [intros _ i Hi; lia | intros _; eexists; reflexivity].
  - rewrite process_frames_step. split.
    + intros H.
      destruct (m !! sourceP) as [input|] eqn:Es; [|now destruct H].
      destruct (m !! destP) as [old|] eqn:Ed; [|now destruct H].
      pose proof (proj1 (IH _ _ _ _) H) as H'. clear H. rename H' into H.
      intros [|i] Hi.
      * rewrite !Z.add_0_r, Es, Ed. split; eexists; reflexivity.
      * destruct (H i ltac:(lia)) as [Hs Hd].
        rewrite lookup_insert_is_Some' in Hs, Hd.
        replace (sourceP + Z.of_nat (S i)) with (sourceP + 1 + Z.of_nat i) by lia.
        replace (destP + Z.of_nat (S i)) with (destP + 1 + Z.of_nat i) by lia.
        split.
        -- destruct Hs as [<- | Hs]; [rewrite Ed; eexists; reflexivity | exact Hs].
        -- destruct Hd as [<- | Hd]; [rewrite Ed; eexists; reflexivity | exact Hd].
    + intros H.
      destruct (H 0%nat ltac:(lia)) as [[input Es] [old Ed]].
      rewrite Z.add_0_r in Es, Ed. rewrite Es, Ed.
      apply (proj2 (IH _ _ _ _)). intros i Hi.
      destruct (H (S i) ltac:(lia)) as [Hs Hd].
      replace (sourceP + Z.of_nat (S i)) with (sourceP + 1 + Z.of_nat i) in Hs by lia.
      replace (destP + Z.of_nat (S i)) with (destP + 1 + Z.of_nat i) in Hd by lia.
      rewrite !lookup_insert_is_Some'. split; right; assumption.
Qed.

(** X6: the block form has a result exactly when the frame count is not
    negative and every cell of the two buffers exists, however the buffers
    overlap: it reads [frameCount] cells from [sourceP] on, writes
    [frameCount] cells from [destP] on, and touches no address outside
    them. *)
Theorem process_block_succeeds_iff
    (sourceP destP frameCount : Z) (this : ResonantLowPassFilter) (m : memory) :
  is_Some (process_block sourceP destP frameCount this m)
  <-> 0 <= frameCount
      /\ forall i : Z, 0 <= i < frameCount ->
           is_Some (m !! (sourceP + i)) /\ is_Some (m !! (destP + i)).
Proof.
  unfold process_block. destruct (Z.ltb_spec frameCount 0) as [Hn|Hn].
  - split; [intros [r H]; discriminate H | intros [H _]; lia].
  - rewrite process_frames_succeeds. split.
    + intros H. split; [exact Hn|]. intros i Hi.
      specialize (H (Z.to_nat i) ltac:(lia)).
      now rewrite Z2Nat.id in H by lia.
    + intros [_ H] i Hi. apply H. lia.
Qed.

Lemma process_frames_written (n : nat) :
  forall (this this' : ResonantLowPassFilter) (m m' : memory) (sourceP destP : Z),
    process_frames n sourceP destP this m = Some (this', m') ->
    dom m' = dom m
    /\ forall i : nat, (i < n)%nat ->
         exists y : float,
           m' !! (destP + Z.of_nat i) = Some y /\ isnan y = false.
Proof.
  induction n as [|n IH]; intros this this' m m' sourceP destP H.
  - cbn in H. injection H as <- <-. split; [reflexivity | intros i Hi; lia].
  - rewrite process_frames_step in H.
    destruct (m !! sourceP) as [input|] eqn:Es; [|discriminate H].
    destruct (m !! destP) as [old|] eqn:Ed; [|discriminate H].
    pose proof (process_frames_frame _ _ _ _ _ _ _ H) as [_ Hout].
    apply IH in H as [Hdom Hw]. split.
    + rewrite Hdom. apply dom_insert_lookup_L. eexists; exact Ed.
    + intros [|i] Hi.
      * exists (fst (process input this)). rewrite Z.add_0_r.
        rewrite Hout by lia. rewrite lookup_insert_eq.
        split; [reflexivity | apply process_output_not_nan].
      * replace (destP + Z.of_nat (S i)) with (destP + 1 + Z.of_nat i) by lia.
        apply Hw. lia.
Qed.

(** X7: a block call never leaves a NaN in the destination buffer, and it
    neither allocates nor frees a cell: when it has a result, each of the
    [frameCount] destination cells holds a sample that is not a NaN (also
    when the buffers overlap), and the set of existing cells is the one
    before. *)
Theorem process_block_writes_no_nan
    (sourceP destP frameCount : Z)
    (this this' : ResonantLowPassFilter) (m m' : memory) :
  process_block sourceP destP frameCount this m = Some (this', m') ->
  dom m' = dom m
  /\ forall i : Z, 0 <= i < frameCount ->
       exists y : float, m' !! (destP + i) = Some y /\ isnan y = false.
Proof.
  unfold process_block. destruct (Z.ltb_spec frameCount 0) as [Hn|Hn];
    [discriminate|].
  intros H. apply process_frames_written in H as [Hdom Hw].
  split; [exact Hdom|]. intros i Hi.
  specialize (Hw (Z.to_nat i) ltac:(lia)).
  now rewrite Z2Nat.id in Hw by lia.
Qed.

Lemma process_feedback_succ (n : nat) (input : float)
    (this : ResonantLowPassFilter) :
  process_feedback (S n) input this
  = (fst (process input this)
       :: fst (process_feedback n (fst (process input this))
                 (snd (process input this))),
     snd (process_feedback n (fst (process input this))
            (snd (process input this)))).
Proof.
  cbn [process_feedback]. destruct (process input this) as [y this'].
  cbn [fst snd]. destruct (process_feedback n y this'); reflexivity.
Qed.

(** X8: with the destination buffer starting one cell after the source
    buffer, the block form reads back what it has just written: only the
    first source sample is used, every later frame takes the output of the
    frame before as its input. *)
Theorem process_block_destination_ahead
    (n : nat) (sourceP : Z) (x : float)
    (this : ResonantLowPassFilter) (m : memory) :
  m !! sourceP = Some x ->
  writable m (sourceP + 1) n ->
  process_block sourceP (sourceP + 1) (Z.of_nat n) this m
  = Some (snd (process_feedback n x this),
          write_samples (sourceP + 1) (fst (process_feedback n x this)) m).
Proof.
  rewrite process_block_of_nat.
  revert sourceP x this m.
  induction n as [|n IH]; intros sourceP x this m Hx Hw; [reflexivity|].
  rewrite process_frames_step, process_feedback_succ, Hx.
  destruct (Hw 0%nat ltac:(lia)) as [old Hold].
  rewrite Z.add_0_r in Hold. rewrite Hold. cbn [fst snd write_samples].
  apply IH.
  - apply lookup_insert_eq.
  - apply writable_tail, Hw.
Qed.

Lemma process_block_writes_no_nan_witness :
  process_block 0 0 3 filter_example buffer_example
  = Some (snd (process_each [f1_0; f1_0; f0_0] filter_example),
          write_samples 0
            (fst (process_each [f1_0; f1_0; f0_0] filter_example))
            buffer_example)
  /\ dom (write_samples 0
            (fst (process_each [f1_0; f1_0; f0_0] filter_example))
            buffer_example)
     = dom buffer_example.
Proof.
  assert (H : process_block 0 0 3 filter_example buffer_example
              = Some (snd (process_each [f1_0; f1_0; f0_0] filter_example),
                      write_samples 0
                        (fst (process_each [f1_0; f1_0; f0_0] filter_example))
                        buffer_example))
    by (vm_compute; reflexivity).
  split; [exact H|].
  exact (proj1 (process_block_writes_no_nan 0 0 3 filter_example _
                  buffer_example _ H)).
Defined.

Lemma process_block_destination_ahead_witness :
  buffer_example !! 0 = Some f1_0
  /\ writable buffer_example (0 + 1) 2
  /\ process_block 0 (0 + 1) (Z.of_nat 2) filter_example buffer_example
     = Some (snd (process_feedback 2 f1_0 filter_example),
             write_samples (0 + 1)
               (fst (process_feedback 2 f1_0 filter_example)) buffer_example).
Proof.
  assert (Hx : buffer_example !! 0 = Some f1_0) by (vm_compute; reflexivity).
  assert (Hw : writable buffer_example (0 + 1) 2).
  { intros i Hi. destruct i as [|[|i]];
      [eexists; vm_compute; reflexivity .. | lia]. }
  split; [exact Hx|]. split; [exact Hw|].
  exact (process_block_destination_ahead 2 0 f1_0 filter_example
           buffer_example Hx Hw).
Defined.

(** The feedback is visible: on the buffer 1.0, 1.0, 0.0 the block call with
    the destination one cell ahead returns other taps than the single-sample
    calls on 1.0, 1.0. *)
Example destination_ahead_differs :
  fst (process_feedback 2 f1_0 filter_example)
  <> fst (process_each [f1_0; f1_0] filter_example).
Proof. vm_compute. discriminate. Qed.

(** ** The memo of [setParams] *)

Section MemoFacts.
Context (libm : Libm).

(** X9: the memo works for arguments within range.  When neither argument
    is a NaN, the cutoff is not below 12.0 and the resonance is within -20.0
    to 20.0, a second [setParams] call with the same pair takes the fast
    path, whether the first one recomputed or not. *)
Theorem setParams_in_range_is_memoized
    (this : ResonantLowPassFilter) (c q : double) :
  isnan c = false -> isnan q = false ->
  (c < d12_0)%dbl = false ->
  (q < dm20_0)%dbl = false -> (q > d20_0)%dbl = false ->
  fast_path (setParams libm c q this) c q = true.
Proof.
  intros Hc Hq Hc12 Hq1 Hq2. rewrite setParams_unfold.
  destruct (fast_path this c q) eqn:E; [exact E|].
  unfold fast_path, with_parameters; cbn [mLastCutoffHz mLastResonanceDb].
  unfold clamp_cutoff, clamp_resonance. rewrite Hc12, Hq1, Hq2.
  now rewrite !eqb_refl.
Qed.

(** X10: the memo does not work for arguments out of range.  When the
    cutoff is below 12.0, or the resonance is outside -20.0 to 20.0, or an
    argument is a NaN, a [setParams] call that recomputes is followed by a
    recomputation again if the same pair is passed once more: the memo holds
    the clamped pair, which the raw pair never equals. *)
Theorem setParams_out_of_range_recomputes_again
    (this : ResonantLowPassFilter) (c q : double) :
  (c < d12_0)%dbl || (q < dm20_0)%dbl || (q > d20_0)%dbl
    || isnan c || isnan q = true ->
  fast_path this c q = false ->
  fast_path (setParams libm c q this) c q = false.
Proof.
  intros H Hf. rewrite setParams_unfold, Hf.
  unfold fast_path, with_parameters; cbn [mLastCutoffHz mLastResonanceDb].
  apply andb_false_iff.
  repeat (apply orb_true_iff in H; destruct H as [H|H]).
  - left. unfold clamp_cutoff. rewrite H.
    destruct (c == d12_0)%dbl eqn:E; [|reflexivity].
    rewrite (eqb_true_ltb_l _ _ _ E) in H. discriminate H.
  - right. unfold clamp_resonance. rewrite H.
    destruct (q == dm20_0)%dbl eqn:E; [|reflexivity].
    rewrite (eqb_true_ltb_l _ _ _ E) in H. discriminate H.
  - right. unfold clamp_resonance.
    destruct (q < dm20_0)%dbl eqn:E1.
    + destruct (q == dm20_0)%dbl eqn:E; [|reflexivity].
      rewrite (eqb_true_ltb_l _ _ _ E) in E1. discriminate E1.
    + rewrite H. destruct (q == d20_0)%dbl eqn:E; [|reflexivity].
      rewrite (eqb_true_ltb_r _ _ _ E) in H. discriminate H.
  - left. now apply eqb_nan_l.
  - right. now apply eqb_nan_l.
Qed.
End MemoFacts.

Lemma setParams_in_range_is_memoized_witness :
  isnan d1000_0 = false /\ isnan d0_0 = false
  /\ (d1000_0 < d12_0)%dbl = false
  /\ (d0_0 < dm20_0)%dbl = false /\ (d0_0 > d20_0)%dbl = false
  /\ fast_path
       (setParams libm_special_cases d1000_0 d0_0 (construct filter_example))
       d1000_0 d0_0 = true.
Proof.
  repeat (split; [reflexivity|]).
  exact (setParams_in_range_is_memoized libm_special_cases
           (construct filter_example) d1000_0 d0_0
           eq_refl eq_refl eq_refl eq_refl eq_refl).
Defined.

Lemma setParams_out_of_range_recomputes_again_witness :
  (d5_0 < d12_0)%dbl || (d0_0 < dm20_0)%dbl || (d0_0 > d20_0)%dbl
    || isnan d5_0 || isnan d0_0 = true
  /\ fast_path (construct filter_example) d5_0 d0_0 = false
  /\ fast_path
       (setParams libm_special_cases d5_0 d0_0 (construct filter_example))
       d5_0 d0_0 = false.
Proof.
  split; [reflexivity|]. split; [reflexivity|].
  exact (setParams_out_of_range_recomputes_again libm_special_cases
           (construct filter_example) d5_0 d0_0 eq_refl eq_refl).
Defined.

(** ** The memo is sound on reachable objects *)

Section MemoSound.
Context (libm : Libm).
Hypothesis pow_zero_exponent :
  libm_pow libm d10_0 (S754_zero true) = libm_pow libm d10_0 (S754_zero false).

(** Unless the arguments are the sentinel pair, [setParams] on an object with
    a consistent memo behaves as an unconditional recomputation. *)
Lemma setParams_behaves_as_recomputed
    (this : ResonantLowPassFilter) (c q : double) :
  memo_consistent libm this ->
  (c == dm1_0)%dbl && (q == dm1_0)%dbl = false ->
  behaves_as (setParams libm c q this)
    (with_parameters this (clamp_cutoff c) (clamp_resonance q)
       (spec_coefficients libm (sampleRateHz this)
          (clamp_cutoff c) (clamp_resonance q))).
Proof.
  intros Hm Hne. rewrite setParams_unfold.
  destruct (fast_path this c q) eqn:Ef; [|apply behaves_as_refl].
  unfold fast_path in Ef. apply andb_true_iff in Ef as [Ec Eq].
  destruct Hm as [[Hc Hq] | (Hk & Hc & Hq1 & Hq2)].
  { rewrite Hc, Hq in *. rewrite Ec, Eq in Hne. discriminate Hne. }
  assert (Kc : clamp_cutoff c = c).
  { unfold clamp_cutoff. now rewrite (eqb_true_ltb_l _ _ _ Ec), Hc. }
  assert (Kq : clamp_resonance q = q).
  { unfold clamp_resonance.
    now rewrite (eqb_true_ltb_l _ _ _ Eq), Hq1, (eqb_true_ltb_r _ _ _ Eq), Hq2. }
  rewrite Kc, Kq.
  assert (Hk' : coefficients_of this
                = spec_coefficients libm (sampleRateHz this) c q).
  { rewrite Hk. destruct (eqb_true_cases _ _ Ec) as [<- | [_ Hz]].
    - destruct (eqb_true_cases _ _ Eq) as [<- | [Hz1 Hz2]]; [reflexivity|].
      destruct q, (mLastResonanceDb this);
        try discriminate Hz1; try discriminate Hz2.
      now apply spec_coefficients_zero_sign.
    - destruct (mLastCutoffHz this); try discriminate Hz. discriminate Hc. }
  unfold behaves_as, with_parameters, taps_of, fast_path.
  cbn [sampleRateHz mLastCutoffHz mLastResonanceDb mX1 mX2 mY1 mY2].
  split; [reflexivity|]. split; [reflexivity|]. split.
  - rewrite Hk'. reflexivity.
  - intros x y.
    now rewrite (eqb_true_eqb_r _ _ x Ec), (eqb_true_eqb_r _ _ y Eq).
Qed.

(** X11: the fast path never leaves stale weights.  On every filter a client
    can hold, after any [setParams(c, q)] call other than with the sentinel
    pair, fast path or not, the five weights are those of the specified
    derivation from the clamped pair at the current sample rate. *)
Theorem setParams_weights_always_current
    (this : ResonantLowPassFilter) (c q : double) :
  reachable libm this ->
  (c == dm1_0)%dbl && (q == dm1_0)%dbl = false ->
  coefficients_of (setParams libm c q this)
  = spec_coefficients libm (sampleRateHz this)
      (clamp_cutoff c) (clamp_resonance q).
Proof.
  intros Hr Hne. apply reachable_memo_consistent in Hr.
  destruct (setParams_behaves_as_recomputed this c q Hr Hne) as (_ & _ & Hk & _).
  rewrite Hk. reflexivity.
Qed.

(** X12: the last [setParams] call decides.  On every filter a client can
    hold, a [setParams(c, q)] call other than with the sentinel pair leaves
    an object that behaves the same whether or not another [setParams] call,
    with any arguments, came just before it. *)
Theorem setParams_last_call_decides
    (this : ResonantLowPassFilter) (c' q' c q : double) :
  reachable libm this ->
  (c == dm1_0)%dbl && (q == dm1_0)%dbl = false ->
  behaves_as (setParams libm c q (setParams libm c' q' this))
    (setParams libm c q this).
Proof.
  intros Hr Hne.
  pose proof (reachable_setParams libm c' q' this Hr) as Hr'.
  apply reachable_memo_consistent in Hr, Hr'.
  eapply behaves_as_trans;
    [apply (setParams_behaves_as_recomputed _ c q Hr' Hne)|].
  apply behaves_as_sym.
  eapply behaves_as_trans;
    [apply (setParams_behaves_as_recomputed _ c q Hr Hne)|].
  rewrite (setParams_unfold libm c' q' this).
  destruct (fast_path this c' q'); apply behaves_as_refl.
Qed.
End MemoSound.

Lemma setParams_weights_always_current_witness :
  let this :=
    setParams libm_special_cases d12_0 d0_0 (construct filter_example) in
  reachable libm_special_cases this
  /\ fast_path this d12_0 d0_0 = true
  /\ coefficients_of (setParams libm_special_cases d12_0 d0_0 this)
     = spec_coefficients libm_special_cases d44100_0 d12_0 d0_0.
Proof.
  cbv zeta.
  assert (Hr : reachable libm_special_cases
                 (setParams libm_special_cases d12_0 d0_0
                    (construct filter_example)))
    by (apply reachable_setParams, reachable_construct).
  split; [exact Hr|]. split; [vm_compute; reflexivity|].
  exact (setParams_weights_always_current libm_special_cases eq_refl
           _ d12_0 d0_0 Hr eq_refl).
Defined.

Lemma setParams_last_call_decides_witness :
  reachable libm_special_cases (construct filter_example)
  /\ behaves_as
       (setParams libm_special_cases d1000_0 d0_0
          (setParams libm_special_cases d5_0 d100_0 (construct filter_example)))
       (setParams libm_special_cases d1000_0 d0_0 (construct filter_example)).
Proof.
  assert (Hr : reachable libm_special_cases (construct filter_example))
    by apply reachable_construct.
  split; [exact Hr|].
  exact (setParams_last_call_decides libm_special_cases eq_refl
           _ d5_0 d100_0 d1000_0 d0_0 Hr eq_refl).
Defined.

(** X13: what construction and a first [setParams] establish.  On an object
    just constructed, a [setParams(c, q)] call other than with the sentinel
    pair sets the sample rate, the memo, the weights and three taps to values
    that do not depend on what the storage held; the fourth tap, [mY2], is
    still what the storage held. *)
Theorem construct_then_setParams
    (libm : Libm) (storage storage' : ResonantLowPassFilter) (c q : double) :
  (c == dm1_0)%dbl && (q == dm1_0)%dbl = false ->
  configuration_of (setParams libm c q (construct storage))
    = configuration_of (setParams libm c q (construct storage'))
  /\ mX1 (setParams libm c q (construct storage)) = d0_0
  /\ mX2 (setParams libm c q (construct storage)) = d0_0
  /\ mY1 (setParams libm c q (construct storage)) = d0_0
  /\ mY2 (setParams libm c q (construct storage)) = mY2 storage.
Proof.
  intros H. rewrite !setParams_unfold.
  assert (Hf : forall s, fast_path (construct s) c q = false) by (intros s; exact H).
  rewrite !Hf. repeat split.
Qed.

Lemma construct_then_setParams_witness :
  (d1000_0 == dm1_0)%dbl && (d0_0 == dm1_0)%dbl = false
  /\ mY2 (setParams libm_special_cases d1000_0 d0_0
            (construct (snd (process f1_0 (snd (process f1_0 filter_example))))))
     = d0_25.
Proof.
  split; [reflexivity|].
  destruct (construct_then_setParams libm_special_cases
              (snd (process f1_0 (snd (process f1_0 filter_example))))
              filter_example d1000_0 d0_0 eq_refl) as (_ & _ & _ & _ & H).
  rewrite H. vm_compute. reflexivity.
Defined.

(** ** The normalized cutoff *)

Section RoundingSign.
Variables prec emax : Z.

Lemma binary_round_aux_sign (m e : Z) (l : location) :
  0 <= m -> sign_positive (binary_round_aux prec emax false m e l) = true.
Proof.
  intros H. unfold binary_round_aux.
  pose proof (shr_fexp_nonneg prec emax m e l H) as H1.
  destruct (shr_fexp prec emax m e l) as [mrs' e']. cbn [fst] in H1.
  pose proof (shr_fexp_nonneg prec emax _ e' loc_Exact
                (round_nearest_even_nonneg _ (loc_of_shr_record mrs') H1)) as H2.
  destruct (shr_fexp prec emax _ e' loc_Exact) as [mrs'' e'']. cbn [fst] in H2.
  destruct (shr_m mrs'') as [|p|p]; [reflexivity| |lia].
  destruct (e'' <=? emax - prec); reflexivity.
Qed.

Lemma div_core_nonneg (m1 m2 : positive) (e1 e2 : Z) :
  0 <= fst (fst (SFdiv_core_binary prec emax (Zpos m1) e1 (Zpos m2) e2)).
Proof.
  unfold SFdiv_core_binary.
  set (s := _ - _ - Z.min _ _).
  set (m' := match s with Z0 => _ | Zpos _ => _ | Zneg _ => _ end).
  assert (Hm : 0 <= m').
  { subst m'. destruct s; [lia | apply Z.shiftl_nonneg; lia | lia]. }
  pose proof (Z.div_pos m' (Zpos m2) Hm ltac:(lia)) as Hq.
  unfold Z.div in Hq. destruct (Z.div_eucl m' (Zpos m2)) as [q r].
  exact Hq.
Qed.
End RoundingSign.

Lemma mul_sign_positive (x y : double) :
  positive_finite x = true -> sign_positive y = true ->
  sign_positive (x * y)%dbl = true.
Proof.
  destruct x as [| | |[|] mx ex]; try discriminate. intros _.
  destruct y as [[|]|[|]| |[|] my ey]; try discriminate; intros _;
    try reflexivity.
  apply binary_round_aux_sign. lia.
Qed.

Lemma div_sign_positive (x y : double) :
  sign_positive x = true -> positive_finite y = true ->
  sign_positive (x / y)%dbl = true.
Proof.
  intros Hx Hy. destruct y as [| | |[|] my ey]; try discriminate Hy.
  destruct x as [[|]|[|]| |[|] mx ex]; try discriminate Hx; try reflexivity.
  unfold Binary64.div, SFdiv.
  pose proof (div_core_nonneg Binary64.prec Binary64.emax mx my ex ey) as H.
  destruct (SFdiv_core_binary _ _ _ _ _ _) as [[mz ez] lz]. cbn [fst] in H.
  apply binary_round_aux_sign, H.
Qed.

Lemma sign_positive_not_below_zero (x : double) :
  sign_positive x = true -> (x < d0_0)%dbl = false.
Proof. destruct x as [[|]|[|]| |[|] m e]; try discriminate; reflexivity. Qed.

Lemma clamp_cutoff_sign (c : double) :
  isnan c = false -> sign_positive (clamp_cutoff c) = true.
Proof.
  intros H. pose proof (clamp_cutoff_floor c) as Hf.
  assert (Hn : isnan (clamp_cutoff c) = false)
    by (unfold clamp_cutoff; destruct (c < d12_0)%dbl; [reflexivity | exact H]).
  destruct (clamp_cutoff c) as [[|]|[|]| |[|] m e];
    try reflexivity; try discriminate Hn; discriminate Hf.
Qed.

(** X14: the argument of [sin] and [cos] stays in range.  When [setParams]
    recomputes with a sample rate that is finite and above zero and a cutoff
    that is not a NaN, the weights are derived from a normalized cutoff that
    is not a NaN, not below zero and not above 0.99, whatever the cutoff
    passed. *)
Theorem setParams_normalized_cutoff_in_range
    (libm : Libm) (this : ResonantLowPassFilter) (c q : double) :
  fast_path this c q = false ->
  positive_finite (sampleRateHz this) = true ->
  isnan c = false ->
  let cutoff := normalized_cutoff (sampleRateHz this) (clamp_cutoff c) in
  coefficients_of (setParams libm c q this)
    = coefficients_from libm cutoff (clamp_resonance q)
  /\ isnan cutoff = false
  /\ (cutoff < d0_0)%dbl = false
  /\ (cutoff > d0_99)%dbl = false.
Proof.
  intros Hf Hr Hc. cbv zeta. split.
  - rewrite setParams_unfold, Hf.
    unfold with_parameters, spec_coefficients, coefficients_from,
      normalized_cutoff, coefficients_of.
    cbn [mA0 mA1 mA2 mB1 mB2 a0 a1 a2 b1 b2].
    now rewrite mul_two_neg, two_times_two.
  - assert (Hs : sign_positive
                   (normalized_cutoff (sampleRateHz this) (clamp_cutoff c)) = true).
    { unfold normalized_cutoff.
      destruct (_ > d0_99)%dbl; [reflexivity|].
      apply div_sign_positive; [|exact Hr].
      apply mul_sign_positive; [reflexivity | now apply clamp_cutoff_sign]. }
    split; [|split].
    + destruct (normalized_cutoff _ _); try discriminate Hs; reflexivity.
    + now apply sign_positive_not_below_zero.
    + unfold normalized_cutoff.
      set (x := (d2_0 * clamp_cutoff c / sampleRateHz this)%dbl).
      destruct (x > d0_99)%dbl eqn:E; [reflexivity | exact E].
Qed.

Lemma setParams_normalized_cutoff_in_range_witness :
  fast_path (construct filter_example) d1000_0 d0_0 = false
  /\ positive_finite (sampleRateHz (construct filter_example)) = true
  /\ isnan d1000_0 = false
  /\ coefficients_of
       (setParams libm_special_cases d1000_0 d0_0 (construct filter_example))
     = coefficients_from libm_special_cases
         (normalized_cutoff d44100_0 d1000_0) d0_0.
Proof.
  repeat (split; [reflexivity|]).
  exact (proj1 (setParams_normalized_cutoff_in_range libm_special_cases
                  (construct filter_example) d1000_0 d0_0
                  eq_refl eq_refl eq_refl)).
Defined.

(** The normalized cutoff of 1000 Hz at 44100 Hz is the double nearest to
    2000/44100, and every cutoff from the Nyquist frequency up is clipped to
    0.99. *)
Example normalized_cutoff_values :
  normalized_cutoff d44100_0 d1000_0
    = (Binary64.of_scaled 2000 0 / Binary64.of_scaled 44100 0)%dbl
  /\ normalized_cutoff d44100_0 (Binary64.of_scaled 22050 0) = d0_99
  /\ normalized_cutoff d44100_0 (S754_infinity false) = d0_99.
Proof. repeat split; vm_compute; reflexivity. Qed.

(** ** The output tap on reachable objects *)

Lemma process_frames_mY1 (n : nat) :
  forall (this this' : ResonantLowPassFilter) (m m' : memory) (sourceP destP : Z),
    process_frames n sourceP destP this m = Some (this', m') ->
    isnan (mY1 this) = false -> isnan (mY1 this') = false.
Proof.
  induction n as [|n IH]; intros this this' m m' sourceP destP H Hy.
  - cbn in H. injection H as <- <-. exact Hy.
  - rewrite process_frames_step in H.
    destruct (m !! sourceP) as [input|]; [|discriminate H].
    destruct (m !! destP) as [old|]; [|discriminate H].
    eapply IH; [exact H|]. apply process_output_not_nan.
Qed.

(** X15: on every filter a client can hold, the tap [mY1] is never a NaN:
    the constructor and [init] zero it, [setParams] keeps it, and both forms
    of [process] store a sample in it only after the NaN test. *)
Theorem reachable_mY1_not_nan (libm : Libm) (this : ResonantLowPassFilter) :
  reachable libm this -> isnan (mY1 this) = false.
Proof.
  induction 1 as [storage | s this _ _ | c q this _ IH | x this _ IH
                 | sourceP destP n m this this' m' _ IH Hb].
  - reflexivity.
  - reflexivity.
  - rewrite setParams_unfold. destruct (fast_path this c q); exact IH.
  - apply process_output_not_nan.
  - unfold process_block in Hb. destruct (n <? 0); [discriminate Hb|].
    eapply process_frames_mY1; eassumption.
Qed.

Lemma reachable_mY1_not_nan_witness :
  let this :=
    snd (process f_nan
           (setParams libm_special_cases d1000_0 d0_0 (construct filter_example))) in
  reachable libm_special_cases this
  /\ isnan (mX1 this) = true
  /\ isnan (mY1 this) = false.
Proof.
  cbv zeta.
  assert (Hr : reachable libm_special_cases
                 (snd (process f_nan
                         (setParams libm_special_cases d1000_0 d0_0
                            (construct filter_example)))))
    by (apply reachable_process, reachable_setParams, reachable_construct).
  split; [exact Hr|]. split; [reflexivity|].
  exact (reachable_mY1_not_nan libm_special_cases _ Hr).
Defined.
